(** * Read path of the in-memory column store: TypedColumnReader

    Shallow embedding of [be/src/olap/memory/column_block.h] and
    [be/src/olap/memory/typed_column_reader.h].

    Buffers are byte lists; a typed view [as<T>()] reads and writes
    [sizeof(T)] consecutive bytes.  Base blocks live in a store addressed
    by location, because a [ColumnBlockHolder] may alias a base block.
    The model is the optimized build: [DCHECK] is a no-op, [CHECK(false)]
    aborts, and an access outside a buffer is undefined behaviour. *)

From stdpp Require Import base decidable option list sorting gmap.
From Stdlib Require Import ZArith Lia.

Local Open Scope Z_scope.

(** ** Outcomes of a call *)

(** A call returns, dies in [CHECK(false)], or runs into undefined
    behaviour (an access outside a buffer or through an absent one). *)
Inductive outcome (A : Type) : Type :=
  | Done (a : A)
  | Abort
  | Undefined.
Arguments Done {A} a.
Arguments Abort {A}.
Arguments Undefined {A}.

Definition obind {A B : Type} (m : outcome A) (k : A -> outcome B) : outcome B :=
  match m with
  | Done a => k a
  | Abort => Abort
  | Undefined => Undefined
  end.

Notation "'let*' x := m 'in' k" := (obind m (fun x => k))
  (at level 10, x name, m at level 100, k at level 200).

(** An [option] read from memory, [None] being an access out of range. *)
Definition defined {A : Type} (o : option A) : outcome A :=
  match o with
  | Some a => Done a
  | None => Undefined
  end.

(** ** Element types *)

(** The types the reader is instantiated with (typed_column_reader.h:101). *)
Inductive ctype : Type :=
  | Int8 | Int16 | Int32 | Int64 | Int128 | Float | Double.

Global Instance ctype_eq_dec : EqDecision ctype.
Proof. solve_decision. Defined.

Definition sizeof (t : ctype) : nat :=
  match t with
  | Int8 => 1
  | Int16 => 2
  | Int32 => 4
  | Int64 => 8
  | Int128 => 16
  | Float => 4
  | Double => 8
  end.

(** [std::is_same<T, ST>::value] *)
Definition is_same (T ST : ctype) : bool := bool_decide (T = ST).

(** ** Buffers and typed views *)

Abbreviation bytes := (list Z) (only parsing).

(** Modelled from the spec: [Buffer] is declared in buffer.h, which is
    not among the sources.  The spec: a byte region that may be absent,
    absent being distinguished from zero-length, with a typed view
    [as<T>()] over the same bytes. *)
Abbreviation Buffer := (option bytes).

(** [b.as<T>()[i]] read, with [sz = sizeof(T)]. *)
Definition as_get (sz : nat) (b : bytes) (i : nat) : option bytes :=
  if decide (i * sz + sz <= length b)%nat
  then Some (take sz (drop (i * sz) b))
  else None.

(** [b.as<T>()[i] = v] *)
Definition as_set (sz : nat) (b : bytes) (i : nat) (v : bytes) : option bytes :=
  if decide (i * sz + sz <= length b)%nat
  then Some (take (i * sz) b ++ v ++ drop (i * sz + sz) b)
  else None.

(** [b.as<bool>()[i]] *)
Definition bool_get (b : bytes) (i : nat) : option bool :=
  x ← b !! i; Some (negb (x =? 0)).

Definition bool_byte (v : bool) : Z := if v then 1 else 0.

(** [b.as<bool>()[i] = v] *)
Definition bool_set (b : bytes) (i : nat) (v : bool) : option bytes :=
  if decide (i < length b)%nat then Some (<[i := bool_byte v]> b) else None.

(** Little-endian unsigned value of a byte string. *)
Fixpoint le_value (v : bytes) : Z :=
  match v with
  | [] => 0
  | x :: v' => x + 256 * le_value v'
  end.

(** Little-endian bytes of [n], [sz] of them. *)
Fixpoint le_bytes (sz : nat) (n : Z) : bytes :=
  match sz with
  | O => []
  | S sz' => (n mod 256) :: le_bytes sz' (n / 256)
  end.

(** ** DeltaIndex *)

Module DeltaIndex.

(** Modelled from the spec: DeltaIndex is declared in delta_index.h,
    which is not among the sources.  The spec describes it as an ordered
    list of global row ids, sorted by row id, the position of a row id
    in the list being its position in the delta's parallel arrays. *)
Record t : Type := Build { rids : list Z }.

(** [DeltaIndex::npos], the "not found" sentinel of [find_idx]. *)
Definition npos : Z := 0xffffffff.

Fixpoint find_from (l : list Z) (rid : Z) (i : Z) : Z :=
  match l with
  | [] => npos
  | r :: l' => if decide (r = rid) then i else find_from l' rid (i + 1)
  end.

(** Modelled from the spec: [find_idx(rid)] returns the position of
    [rid] or [npos]. *)
Definition find_idx (ix : t) (rid : Z) : Z := find_from (rids ix) rid 0.

(** Modelled from the spec: [block_range(block_id)] returns the
    half-open range of positions whose row ids fall in the block; the
    row ids being sorted, these are the positions after the row ids of
    lower blocks and up to the last row id of this block. *)
Definition block_range (ix : t) (block : Z) : Z * Z :=
  (Z.of_nat (length (filter (fun r => Z.shiftr r 16 < block) (rids ix))),
   Z.of_nat (length (filter (fun r => Z.shiftr r 16 <= block) (rids ix)))).

(** The [uint16_t] view of [index->data().data()]: the in-block offset
    of each entry. *)
Definition poses (ix : t) : list Z :=
  (fun r => Z.land r 0xffff) <$> rids ix.

(** Row ids are 32-bit and strictly ascending, and every position is
    below [npos]. *)
Definition wf (ix : t) : Prop :=
  Forall (fun r => 0 <= r < 2 ^ 32) (rids ix) /\
  StronglySorted Z.lt (rids ix) /\
  Z.of_nat (length (rids ix)) <= npos.

End DeltaIndex.

(** ** ColumnDelta *)

(** Modelled from the spec: ColumnDelta is declared in column_delta.h,
    which is not among the sources.  The spec: a DeltaIndex, and a data
    buffer and an optional null buffer parallel to the index. *)
Record ColumnDelta : Type := {
  index : DeltaIndex.t;
  nulls : Buffer;
  data : Buffer
}.

(** [pdelta->find_idx(rid)], the lookup in the delta's index. *)
Definition find_idx (d : ColumnDelta) (rid : Z) : Z :=
  DeltaIndex.find_idx (index d) rid.

(** Modelled from the spec: [contains_block(block_id)] is true iff the
    delta's range for that block is non-empty. *)
Definition contains_block (d : ColumnDelta) (block : Z) : bool :=
  let '(start, end_) := DeltaIndex.block_range (index d) block in
  bool_decide (start < end_).

(** ** ColumnBlock (column_block.h) *)

Record ColumnBlock : Type := {
  _size : nat;
  _nulls : Buffer;
  _data : Buffer
}.

(** [new ColumnBlock()] *)
Definition new_ColumnBlock : ColumnBlock :=
  {| _size := 0; _nulls := None; _data := None |}.

(** [bool is_null(uint32_t idx) const { return _nulls && _nulls.as<bool>()[idx]; }] *)
Definition is_null (cb : ColumnBlock) (idx : Z) : outcome bool :=
  match _nulls cb with
  | None => Done false
  | Some b => defined (bool_get b (Z.to_nat idx))
  end.

(** ** Status, store of blocks, ColumnBlockHolder *)

(** Modelled from the spec: [Status] is not among the sources; the one
    error the spec names on this path is the allocation failure. *)
Inductive Status : Type :=
  | OK
  | MemoryAllocFailed.

(** Blocks are shared by pointer: the store maps a location to the block
    that lives there. *)
Abbreviation loc := nat (only parsing).
Abbreviation store := (gmap loc ColumnBlock).

(** Modelled from the spec: [ColumnBlock::alloc] is declared in
    column_block.h and defined in a file that is not among the sources.
    The spec: it allocates the data region for [size] elements of [esize]
    bytes and a matching null bitmap, and fails with an allocation error
    if memory cannot be obtained.  [mem_ok] tells whether the allocator,
    an external collaborator, can obtain the memory; fresh memory is
    zero-filled. *)
Definition alloc (mem_ok : bool) (cb : ColumnBlock) (size esize : nat)
  : Status * ColumnBlock :=
  if mem_ok
  then (OK, {| _size := size;
               _nulls := Some (replicate size 0);
               _data := Some (replicate (size * esize) 0) |})
  else (MemoryAllocFailed, cb).

(** Modelled from the spec: [ColumnBlock::copy_to] is not among the
    sources.  The spec: it copies the full base block into the owned
    block, byte-for-byte, [nrows] elements of [esize] bytes; the null
    state of the [nrows] rows goes with it (a page without null bitmap
    has no null row).  The spec names no failure of the copy.  What the
    copy does with a destination that has a data region and no null bitmap
    while the page has one is left open by the spec; the model gives no
    result there. *)
Definition copy_to (page dest : ColumnBlock) (nrows esize : nat)
  : outcome (Status * ColumnBlock) :=
  let* src := defined (_data page) in
  let* dst := defined (_data dest) in
  if decide (nrows * esize <= length src /\ nrows * esize <= length dst)%nat
  then
    let data' := take (nrows * esize) src ++ drop (nrows * esize) dst in
    match _nulls dest, _nulls page with
    | Some dn, Some sn =>
        if decide (nrows <= length sn /\ nrows <= length dn)%nat
        then Done (OK, {| _size := _size dest;
                          _nulls := Some (take nrows sn ++ drop nrows dn);
                          _data := Some data' |})
        else Undefined
    | Some dn, None =>
        if decide (nrows <= length dn)%nat
        then Done (OK, {| _size := _size dest;
                          _nulls := Some (replicate nrows 0 ++ drop nrows dn);
                          _data := Some data' |})
        else Undefined
    | None, None =>
        Done (OK, {| _size := _size dest; _nulls := None; _data := Some data' |})
    | None, Some _ => Undefined
    end
  else Undefined.

(** Modelled from the spec: ColumnBlockHolder is not among the sources.
    The spec: either a non-owning shared reference to an existing block
    or an owned block; [get_block] uses [init], [own], [get] and
    [release]. *)
Record ColumnBlockHolder : Type := {
  _cb : option loc;
  _own : bool
}.

(** Modelled from the spec: [cbh->init(cb, own)] makes the holder a
    reference to [cb], owning or not. *)
Definition init (cb : loc) (own : bool) : ColumnBlockHolder :=
  {| _cb := Some cb; _own := own |}.

(** Modelled from the spec: [cbh->release()] destroys an owned block and
    drops a shared reference. *)
Definition release (h : store) (cbh : ColumnBlockHolder)
  : store * ColumnBlockHolder :=
  match _cb cbh, _own cbh with
  | Some l, true => (delete l h, {| _cb := None; _own := false |})
  | _, _ => (h, {| _cb := None; _own := false |})
  end.

(** The block a holder gives access to. *)
Definition held (h : store) (cbh : ColumnBlockHolder) : option ColumnBlock :=
  l ← _cb cbh; h !! l.

(** ** The reader *)

(** The members [TypedColumnGet], [TypedColumnEquals] and [get_block]
    use: [_base], the vector of base blocks, and [_deltas], the deltas
    visible at the reader's version, oldest first. *)
Record Reader : Type := {
  _base : list loc;
  _deltas : list ColumnDelta
}.

(** The base block [bid] of the reader. *)
Definition base_block (h : store) (r : Reader) (bid : Z) : outcome ColumnBlock :=
  let* l := defined (_base r !! Z.to_nat bid) in
  defined (h !! l).

(** What [get] returns: [nullptr], or the address of an element of a
    delta's data or of a base block's data. *)
Inductive pointer : Type :=
  | nullptr
  | in_delta (i : nat) (pos : Z)
  | in_base (bid : Z) (idx : Z).

(** [pdelta->nulls() && pdelta->nulls().as<bool>()[pos]] *)
Definition delta_is_null (pdelta : ColumnDelta) (pos : Z) : outcome bool :=
  match nulls pdelta with
  | None => Done false
  | Some b => defined (bool_get b (Z.to_nat pos))
  end.

(** The loop of [TypedColumnGet] (typed_column_reader.h:29-44), [n]
    being [i + 1]: [None] when the loop ends without returning. *)
Fixpoint get_scan (Nullable : bool) (deltas : list ColumnDelta) (rid : Z)
    (n : nat) : option (outcome pointer) :=
  match n with
  | O => None
  | S i =>
      match deltas !! i with
      | None => Some Undefined
      | Some pdelta =>
          let pos := find_idx pdelta rid in
          if decide (pos <> DeltaIndex.npos)
          then Some (if Nullable
                     then let* isnull := delta_is_null pdelta pos in
                          if (isnull : bool) then Done nullptr
                          else Done (in_delta i pos)
                     else Done (in_delta i pos))
          else get_scan Nullable deltas rid i
      end
  end.

(** [TypedColumnGet<Reader, T, Nullable, ST>] (typed_column_reader.h:28-59) *)
Definition TypedColumnGet (T : ctype) (Nullable : bool) (ST : ctype)
    (h : store) (reader : Reader) (rid : Z) : outcome pointer :=
  match get_scan Nullable (_deltas reader) rid (length (_deltas reader)) with
  | Some res => res
  | None =>
      let bid := Z.shiftr rid 16 in
      let idx := Z.land rid 0xffff in
      let* page := base_block h reader bid in
      if Nullable
      then let* isnull := is_null page idx in
           if (isnull : bool) then Done nullptr else Done (in_base bid idx)
      else Done (in_base bid idx)
  end.

(** The [ST] value a pointer returned by [get] points to. *)
Definition deref (ST : ctype) (h : store) (reader : Reader) (p : pointer)
  : outcome bytes :=
  match p with
  | nullptr => Undefined
  | in_delta i pos =>
      let* pdelta := defined (_deltas reader !! i) in
      let* b := defined (data pdelta) in
      defined (as_get (sizeof ST) b (Z.to_nat pos))
  | in_base bid idx =>
      let* page := base_block h reader bid in
      let* b := defined (_data page) in
      defined (as_get (sizeof ST) b (Z.to_nat idx))
  end.

Module HashUtil.

Definition FNV64_PRIME : Z := 1099511628211.

(** Modelled from the spec: [HashUtil::fnv_hash64] is in
    util/hash_util.hpp, which is not among the sources.  The spec calls
    it a well-known 64-bit fingerprint algorithm: for each byte, the
    hash is xored with the byte and multiplied by the FNV prime, in
    64-bit arithmetic. *)
Fixpoint fnv_hash64 (v : bytes) (hash : Z) : Z :=
  match v with
  | [] => hash
  | x :: v' => fnv_hash64 v' ((Z.lxor x hash * FNV64_PRIME) mod 2 ^ 64)
  end.

End HashUtil.

(** [((const T* )rhs)[rhs_idx]] *)
Definition rhs_at (T : ctype) (rhs : Buffer) (rhs_idx : nat) : outcome bytes :=
  let* b := defined rhs in
  defined (as_get (sizeof T) b rhs_idx).

(** [TypedColumnHashcode<T, ST>] (typed_column_reader.h:61-70) *)
Definition TypedColumnHashcode (T ST : ctype) (rhs : Buffer) (rhs_idx : nat)
  : outcome Z :=
  if is_same T ST
  then let* prhs := rhs_at T rhs rhs_idx in
       Done (HashUtil.fnv_hash64 prhs 0)
  else Done 0.

(** IEEE equality on the bit patterns of two floating-point numbers with
    [ebits] exponent bits and [mbits] fraction bits: a NaN equals nothing,
    the two zeros are equal, otherwise the bits decide. *)
Definition ieee_eq (ebits mbits : Z) (x y : Z) : bool :=
  let frac v := Z.land v (2 ^ mbits - 1) in
  let expo v := Z.land (Z.shiftr v mbits) (2 ^ ebits - 1) in
  let nan v := (expo v =? 2 ^ ebits - 1) && negb (frac v =? 0) in
  let zero v := (expo v =? 0) && (frac v =? 0) in
  if nan x || nan y then false
  else if zero x && zero y then true
  else x =? y.

(** [a == b] at type [t], on the stored bytes. *)
Definition typed_eq (t : ctype) (a b : bytes) : bool :=
  match t with
  | Float => ieee_eq 8 23 (le_value a) (le_value b)
  | Double => ieee_eq 11 52 (le_value a) (le_value b)
  | _ => bool_decide (a = b)
  end.

(** [buf.as<T>()[i] == rhs_value] *)
Definition elem_equals (T : ctype) (buf : Buffer) (i : Z)
    (rhs_value : outcome bytes) : outcome bool :=
  let* b := defined buf in
  let* lhs := defined (as_get (sizeof T) b (Z.to_nat i)) in
  let* v := rhs_value in
  Done (typed_eq T lhs v).

(** The loop of [TypedColumnEquals] (typed_column_reader.h:75-86). *)
Fixpoint equals_scan (T : ctype) (Nullable : bool) (deltas : list ColumnDelta)
    (rid : Z) (rhs_value : outcome bytes) (n : nat) : option (outcome bool) :=
  match n with
  | O => None
  | S i =>
      match deltas !! i with
      | None => Some Undefined
      | Some pdelta =>
          let pos := find_idx pdelta rid in
          if decide (pos <> DeltaIndex.npos)
          then Some (if Nullable
                     then Abort
                     else elem_equals T (data pdelta) pos rhs_value)
          else equals_scan T Nullable deltas rid rhs_value i
      end
  end.

(** [TypedColumnEquals<Reader, T, Nullable, ST>]
    (typed_column_reader.h:72-98) *)
Definition TypedColumnEquals (T : ctype) (Nullable : bool) (ST : ctype)
    (h : store) (reader : Reader) (rid : Z) (rhs : Buffer) (rhs_idx : nat)
  : outcome bool :=
  let rhs_value := rhs_at T rhs rhs_idx in
  match equals_scan T Nullable (_deltas reader) rid rhs_value
          (length (_deltas reader)) with
  | Some res => res
  | None =>
      let bid := Z.shiftr rid 16 in
      let idx := Z.land rid 0xffff in
      if Nullable
      then Abort
      else let* page := base_block h reader bid in
           elem_equals T (_data page) idx rhs_value
  end.

(** ** TypedColumnReader<T, Nullable, ST> *)

Definition set_nulls (cb : ColumnBlock) (b : bytes) : ColumnBlock :=
  {| _size := _size cb; _nulls := Some b; _data := _data cb |}.

Definition set_data (cb : ColumnBlock) (b : bytes) : ColumnBlock :=
  {| _size := _size cb; _nulls := _nulls cb; _data := Some b |}.

(** [cb.nulls().as<bool>()[pos] = v] *)
Definition write_null (cb : ColumnBlock) (pos : Z) (v : bool) : outcome ColumnBlock :=
  let* cn := defined (_nulls cb) in
  let* cn' := defined (bool_set cn (Z.to_nat pos) v) in
  Done (set_nulls cb cn').

(** [cb.data().as<ST>()[pos] = data[i]] *)
Definition write_data (ST : ctype) (cb : ColumnBlock) (pos : Z)
    (delta_data : Buffer) (i : Z) : outcome ColumnBlock :=
  let* db := defined delta_data in
  let* v := defined (as_get (sizeof ST) db (Z.to_nat i)) in
  let* cd := defined (_data cb) in
  let* cd' := defined (as_set (sizeof ST) cd (Z.to_nat pos) v) in
  Done (set_data cb cd').

(** Body of the loop at typed_column_reader.h:150-159. *)
Definition row_with_nulls (ST : ctype) (delta : ColumnDelta) (dn : bytes)
    (i : Z) (cb : ColumnBlock) : outcome ColumnBlock :=
  let* pos := defined (DeltaIndex.poses (index delta) !! Z.to_nat i) in
  let* isnull := defined (bool_get dn (Z.to_nat i)) in
  if (isnull : bool)
  then write_null cb pos true
  else let* cb' := write_null cb pos false in
       write_data ST cb' pos (data delta) i.

(** Body of the loop at typed_column_reader.h:161-165. *)
Definition row_without_nulls (ST : ctype) (delta : ColumnDelta)
    (i : Z) (cb : ColumnBlock) : outcome ColumnBlock :=
  let* pos := defined (DeltaIndex.poses (index delta) !! Z.to_nat i) in
  let* cb' := write_null cb pos true in
  write_data ST cb' pos (data delta) i.

(** Body of the loop at typed_column_reader.h:168-170. *)
Definition row_plain (ST : ctype) (delta : ColumnDelta)
    (i : Z) (cb : ColumnBlock) : outcome ColumnBlock :=
  let* pos := defined (DeltaIndex.poses (index delta) !! Z.to_nat i) in
  write_data ST cb pos (data delta) i.

(** [for (uint32_t i = start; i < end; i++) body], [n] iterations left. *)
Fixpoint patch_rows (body : Z -> ColumnBlock -> outcome ColumnBlock)
    (n : nat) (i : Z) (cb : ColumnBlock) : outcome ColumnBlock :=
  match n with
  | O => Done cb
  | S n' => let* cb' := body i cb in patch_rows body n' (i + 1) cb'
  end.

(** Body of the loop over the deltas (typed_column_reader.h:139-172). *)
Definition patch_delta (Nullable : bool) (ST : ctype) (delta : ColumnDelta)
    (block : Z) (cb : ColumnBlock) : outcome ColumnBlock :=
  let '(start, end_) := DeltaIndex.block_range (index delta) block in
  if decide (end_ = start) then Done cb
  else
    let n := Z.to_nat (end_ - start) in
    if Nullable
    then match nulls delta with
         | Some dn => patch_rows (row_with_nulls ST delta dn) n start cb
         | None => patch_rows (row_without_nulls ST delta) n start cb
         end
    else patch_rows (row_plain ST delta) n start cb.

(** The loop body [patch_delta] runs for a delta. *)
Definition delta_body (Nullable : bool) (ST : ctype) (delta : ColumnDelta)
  : Z -> ColumnBlock -> outcome ColumnBlock :=
  if Nullable
  then match nulls delta with
       | Some dn => row_with_nulls ST delta dn
       | None => row_without_nulls ST delta
       end
  else row_plain ST delta.

(** [for (auto delta : _deltas)] *)
Fixpoint patch_deltas (Nullable : bool) (ST : ctype) (deltas : list ColumnDelta)
    (block : Z) (cb : ColumnBlock) : outcome ColumnBlock :=
  match deltas with
  | [] => Done cb
  | delta :: deltas' =>
      let* cb' := patch_delta Nullable ST delta block cb in
      patch_deltas Nullable ST deltas' block cb'
  end.

(** The loop at typed_column_reader.h:119-125. *)
Fixpoint base_only_scan (deltas : list ColumnDelta) (block : Z) : bool :=
  match deltas with
  | [] => true
  | delta :: deltas' =>
      if contains_block delta block then false
      else base_only_scan deltas' block
  end.

Section TypedColumnReader.

Variables (T : ctype) (Nullable : bool) (ST : ctype).

Definition get (h : store) (reader : Reader) (rid : Z) : outcome pointer :=
  TypedColumnGet T Nullable ST h reader rid.

Definition hashcode (rhs : Buffer) (rhs_idx : nat) : outcome Z :=
  TypedColumnHashcode T ST rhs rhs_idx.

Definition equals (h : store) (reader : Reader) (rid : Z)
    (rhs : Buffer) (rhs_idx : nat) : outcome bool :=
  TypedColumnEquals T Nullable ST h reader rid rhs rhs_idx.

(** [!cbh->own() || cbh->get()->size() < nrows] *)
Definition need_new (h : store) (cbh : ColumnBlockHolder) (nrows : nat)
  : outcome bool :=
  if negb (_own cbh) then Done true
  else let* cb := defined (held h cbh) in
       Done (bool_decide (_size cb < nrows)%nat).

(** typed_column_reader.h:131-136.  The [Status] of [alloc] is
    dropped there. *)
Definition fresh_block (mem_ok : bool) (h : store) (cbh : ColumnBlockHolder)
    (nrows : nat) : store * ColumnBlockHolder :=
  let h' := (release h cbh).1 in
  let l := fresh (dom h') in
  (<[l := (alloc mem_ok new_ColumnBlock nrows (sizeof T)).2]> h', init l true).

(** [get_block] (typed_column_reader.h:118-174).  The result is the
    store after the call, the caller's holder and the returned status. *)
Definition get_block (mem_ok : bool) (h : store) (reader : Reader)
    (nrows : nat) (block : Z) (cbh : ColumnBlockHolder)
  : outcome (store * ColumnBlockHolder * Status) :=
  let base_only := base_only_scan (_deltas reader) block in
  let* page := defined (_base reader !! Z.to_nat block) in
  if base_only then Done (h, init page false, OK)
  else
    let* fresh_needed := need_new h cbh nrows in
    let hc := if (fresh_needed : bool)
              then fresh_block mem_ok h cbh nrows
              else (h, cbh) in
    let* l := defined (_cb hc.2) in
    let* cb := defined (hc.1 !! l) in
    let* pg := defined (hc.1 !! page) in
    let* copied := copy_to pg cb nrows (sizeof ST) in
    match copied.1 with
    | OK =>
        let* cb' := patch_deltas Nullable ST (_deltas reader) block copied.2 in
        Done (<[l := cb']> hc.1, hc.2, OK)
    | err => Done (<[l := copied.2]> hc.1, hc.2, err)
    end.

End TypedColumnReader.

(** [cb.data().as<ST>()[idx]] *)
Definition data_at (ST : ctype) (cb : ColumnBlock) (idx : Z) : option bytes :=
  b ← _data cb; as_get (sizeof ST) b (Z.to_nat idx).

(** [delta->data().as<ST>()[i]] *)
Definition delta_value (ST : ctype) (delta : ColumnDelta) (i : Z) : option bytes :=
  b ← data delta; as_get (sizeof ST) b (Z.to_nat i).

(** The row [idx] of a materialized block: its null state and its [ST]
    value. *)
Definition block_row (ST : ctype) (cb : ColumnBlock) (idx : Z)
  : outcome (bool * bytes) :=
  let* isnull := is_null cb idx in
  let* v := defined (data_at ST cb idx) in
  Done (isnull, v).

(** Two blocks that show the same row [idx]. *)
Definition same_row (ST : ctype) (idx : Z) (cb cb' : ColumnBlock) : Prop :=
  is_null cb' idx = is_null cb idx /\ data_at ST cb' idx = data_at ST cb idx.

(** What the entry [i] of a delta leaves in the row [idx] it is written
    to, as the three loops of [get_block] have it. *)
Definition row_written (Nullable : bool) (ST : ctype) (delta : ColumnDelta)
    (i : Z) (cb : ColumnBlock) (idx : Z) : Prop :=
  let copied := exists v, delta_value ST delta i = Some v /\
                          data_at ST cb idx = Some v in
  if Nullable
  then match nulls delta with
       | Some dn =>
           (bool_get dn (Z.to_nat i) = Some true /\ is_null cb idx = Done true) \/
           (bool_get dn (Z.to_nat i) = Some false /\
            is_null cb idx = Done false /\ copied)
       | None => is_null cb idx = Done true /\ copied
       end
  else copied.

(** Row [idx] of the block [cb] shows what the pointer [p] returned by
    [get] shows: null for [nullptr], else not null (on a nullable column)
    and the value [p] points to. *)
Definition row_agrees (Nullable : bool) (ST : ctype) (h : gmap nat ColumnBlock)
    (reader : Reader) (p : pointer) (cb : ColumnBlock) (idx : Z) : Prop :=
  match p with
  | nullptr => is_null cb idx = Done true
  | _ => (Nullable = true -> is_null cb idx = Done false) /\
         deref ST h reader p = defined (data_at ST cb idx)
  end.

(** ** The scenario of the tests

    Base block 0 holds the [int32] rows 10, 20, 30, 40 and no null.
    Delta A (version 1) sets row 1 to 25 and carries no null buffer.
    Delta B (version 2) sets row 1 to null and row 3 to 99. *)

Definition int32s (l : list Z) : bytes := concat (le_bytes 4 <$> l).

Definition base0 : ColumnBlock :=
  {| _size := 4; _nulls := None; _data := Some (int32s [10; 20; 30; 40]) |}.

Definition store0 : store := {[ 0%nat := base0 ]}.

Definition deltaA : ColumnDelta :=
  {| index := DeltaIndex.Build [1]; nulls := None; data := Some (int32s [25]) |}.

Definition deltaB : ColumnDelta :=
  {| index := DeltaIndex.Build [1; 3];
     nulls := Some [1; 0];
     data := Some (int32s [0; 99]) |}.

Definition reader_v0 : Reader := {| _base := [0%nat]; _deltas := [] |}.
Definition reader_v1 : Reader := {| _base := [0%nat]; _deltas := [deltaA] |}.
Definition reader_v2 : Reader := {| _base := [0%nat]; _deltas := [deltaA; deltaB] |}.

Definition empty_holder : ColumnBlockHolder := {| _cb := None; _own := false |}.

(** A second base block, which no delta touches. *)
Definition base1 : ColumnBlock :=
  {| _size := 4; _nulls := None; _data := Some (int32s [50; 60; 70; 80]) |}.

Definition store1 : gmap nat ColumnBlock := {[ 0%nat := base0; 1%nat := base1 ]}.

Definition reader_two_blocks : Reader :=
  {| _base := [0%nat; 1%nat]; _deltas := [deltaA; deltaB] |}.

(** The block the caller sees through its holder after [get_block]. *)
Definition materialized (res : outcome (store * ColumnBlockHolder * Status))
  : outcome ColumnBlock :=
  let* x := res in defined (held x.1.1 x.1.2).

(** The integer types: [a == b] holds exactly when the stored bytes are
    the same. *)
Definition is_integer (t : ctype) : bool :=
  match t with
  | Float | Double => false
  | _ => true
  end.

(** The reader after one more delta has become visible: the delta vector
    is chronological, the new delta goes to the end. *)
Definition with_delta (reader : Reader) (d : ColumnDelta) : Reader :=
  {| _base := _base reader; _deltas := _deltas reader ++ [d] |}.

(** Sizes of the buffers of a block. *)
Definition buffer_sizes (cb : ColumnBlock) : nat * option nat * option nat :=
  (_size cb, length <$> _nulls cb, length <$> _data cb).

(** A block a caller owns from an earlier materialization, with stale
    rows, and the store and the holder that go with it. *)
Definition stale_block : ColumnBlock :=
  {| _size := 4;
     _nulls := Some [1; 1; 1; 1];
     _data := Some (int32s [7; 7; 7; 7]) |}.

Definition store_owned : gmap nat ColumnBlock :=
  {[ 0%nat := base0; 5%nat := stale_block ]}.

Definition owning_holder : ColumnBlockHolder :=
  {| _cb := Some 5%nat; _own := true |}.

(** Delta C (version 3) sets row 2 to 35. *)
Definition deltaC : ColumnDelta :=
  {| index := DeltaIndex.Build [2];
     nulls := Some [0];
     data := Some (int32s [35]) |}.

(** Delta D sets row 5 of block 1 to 55. *)
Definition deltaD : ColumnDelta :=
  {| index := DeltaIndex.Build [65541];
     nulls := Some [0];
     data := Some (int32s [55]) |}.

(** Base block 0 with a null bitmap that marks row 2. *)
Definition base_marked : ColumnBlock :=
  {| _size := 4;
     _nulls := Some [0; 0; 1; 0];
     _data := Some (int32s [10; 20; 30; 40]) |}.

Definition store_marked : gmap nat ColumnBlock := {[ 0%nat := base_marked ]}.

(** Delta E (version 1) sets row 1 to 50, flagged not null.  Delta F
    (version 2) sets row 1 to 77 and carries no null buffer. *)
Definition deltaE : ColumnDelta :=
  {| index := DeltaIndex.Build [1]; nulls := Some [0]; data := Some (int32s [50]) |}.

Definition deltaF : ColumnDelta :=
  {| index := DeltaIndex.Build [1]; nulls := None; data := Some (int32s [77]) |}.

Definition reader_ef : Reader := {| _base := [0%nat]; _deltas := [deltaE; deltaF] |}.

(** * Properties *)

(** ** Typed views *)

Lemma as_get_length (sz : nat) (b : bytes) (i : nat) (v : bytes) :
  as_get sz b i = Some v -> length v = sz.
Proof.
  unfold as_get. case_decide; [|done].
  intros [= <-]. rewrite length_take, length_drop. lia.
Qed.

Lemma as_set_length (sz : nat) (b : bytes) (i : nat) (v b' : bytes) :
  length v = sz -> as_set sz b i v = Some b' -> length b' = length b.
Proof.
  unfold as_set. intros Hv. case_decide; [|done].
  intros [= <-]. rewrite !length_app, length_take, length_drop. lia.
Qed.

Lemma as_set_lookup (sz : nat) (b : bytes) (i : nat) (v b' : bytes) (k : nat) :
  length v = sz -> as_set sz b i v = Some b' ->
  b' !! k = if decide (i * sz <= k < i * sz + sz)%nat
            then v !! (k - i * sz)%nat else b !! k.
Proof.
  unfold as_set. intros Hv. case_decide; [|done]. intros [= <-].
  destruct (decide (k < i * sz)%nat) as [Hlt|Hge].
  - rewrite lookup_app_l by (rewrite length_take; lia).
    rewrite lookup_take_lt by lia. case_decide; [lia|done].
  - rewrite lookup_app_r by (rewrite length_take; lia).
    rewrite length_take, Nat.min_l by lia.
    destruct (decide (k < i * sz + sz)%nat).
    + rewrite lookup_app_l by lia. case_decide; [done|lia].
    + rewrite lookup_app_r by lia. rewrite lookup_drop.
      case_decide; [lia|]. f_equal. lia.
Qed.

Lemma as_get_ext (sz : nat) (b b' : bytes) (i : nat) :
  length b' = length b ->
  (forall j, (j < sz)%nat -> b' !! (i * sz + j)%nat = b !! (i * sz + j)%nat) ->
  as_get sz b' i = as_get sz b i.
Proof.
  intros Hlen Hext. unfold as_get. rewrite Hlen.
  case_decide; [|done]. f_equal.
  apply list_eq. intros j.
  destruct (decide (j < sz)%nat).
  - rewrite !lookup_take_lt by done. rewrite !lookup_drop. by apply Hext.
  - rewrite !lookup_take_ge by lia. done.
Qed.

Lemma as_get_as_set_same (sz : nat) (b : bytes) (i : nat) (v b' : bytes) :
  length v = sz -> as_set sz b i v = Some b' -> as_get sz b' i = Some v.
Proof.
  intros Hv Hset. pose proof (as_set_length _ _ _ _ _ Hv Hset) as Hlen.
  assert (i * sz + sz <= length b)%nat as Hin.
  { revert Hset. unfold as_set. by case_decide. }
  unfold as_get. rewrite Hlen. case_decide; [|done]. f_equal.
  apply list_eq. intros j.
  destruct (decide (j < sz)%nat).
  - rewrite lookup_take_lt by done. rewrite lookup_drop.
    rewrite (as_set_lookup _ _ _ _ _ _ Hv Hset).
    case_decide; [|lia]. f_equal. lia.
  - rewrite lookup_take_ge by lia. symmetry. apply lookup_ge_None. lia.
Qed.

Lemma as_get_as_set_other (sz : nat) (b : bytes) (i j : nat) (v b' : bytes) :
  length v = sz -> as_set sz b i v = Some b' -> i <> j ->
  as_get sz b' j = as_get sz b j.
Proof.
  intros Hv Hset Hij. apply as_get_ext.
  - by eapply as_set_length.
  - intros k Hk. rewrite (as_set_lookup _ _ _ _ _ _ Hv Hset).
    case_decide; [|done]. exfalso. nia.
Qed.

(** ** Row ids and the delta index *)

Lemma rid_split (r : Z) :
  0 <= r -> r = Z.shiftr r 16 * 65536 + Z.land r 0xffff.
Proof.
  intros Hr. rewrite Z.shiftr_div_pow2 by lia.
  change 0xffff with (Z.ones 16). rewrite Z.land_ones by lia.
  change (2 ^ 16) with 65536. pose proof (Z.div_mod r 65536). lia.
Qed.

Lemma rid_same_block (r1 r2 : Z) :
  0 <= r1 -> 0 <= r2 ->
  Z.shiftr r1 16 = Z.shiftr r2 16 ->
  Z.land r1 0xffff = Z.land r2 0xffff -> r1 = r2.
Proof.
  intros H1 H2 Hb Ho.
  rewrite (rid_split r1 H1), (rid_split r2 H2). congruence.
Qed.

Lemma offset_nonneg (r : Z) : 0 <= Z.land r 0xffff.
Proof. apply Z.land_nonneg. right. lia. Qed.

Lemma shiftr16_mono (x y : Z) : x <= y -> Z.shiftr x 16 <= Z.shiftr y 16.
Proof.
  intros Hxy. rewrite !Z.shiftr_div_pow2 by lia.
  apply Z.div_le_mono; lia.
Qed.

Lemma find_from_hit (l : list Z) (rid k : Z) :
  DeltaIndex.find_from l rid k <> DeltaIndex.npos ->
  exists i : nat,
    DeltaIndex.find_from l rid k = k + Z.of_nat i /\ l !! i = Some rid.
Proof.
  revert k. induction l as [|r l IH]; intros k; simpl; [done|].
  case_decide as Hr.
  - intros _. exists 0%nat. subst. split; [lia|done].
  - intros Hne. destruct (IH _ Hne) as (i & Hi & Hl).
    exists (S i). split; [lia|done].
Qed.

Lemma find_from_miss (l : list Z) (rid k : Z) :
  0 <= k -> k + Z.of_nat (length l) <= DeltaIndex.npos ->
  DeltaIndex.find_from l rid k = DeltaIndex.npos -> rid ∉ l.
Proof.
  revert k. induction l as [|r l IH]; intros k Hk Hlen; simpl.
  - intros _. apply not_elem_of_nil.
  - simpl in Hlen. case_decide as Hr; [lia|].
    intros Hf. apply not_elem_of_cons. split; [done|].
    apply (IH (k + 1)); [lia|lia|done].
Qed.

(** In a sorted list, the elements satisfying a downward-closed
    predicate form a prefix. *)
Lemma sorted_filter_prefix (P : Z -> Prop) `{!forall x, Decision (P x)}
    (l : list Z) (i : nat) (r : Z) :
  (forall x y, x < y -> P y -> P x) ->
  StronglySorted Z.lt l ->
  l !! i = Some r ->
  (i < length (filter P l))%nat <-> P r.
Proof.
  intros Hdown Hs. revert i. induction Hs as [|x l Hs IH Hx]; intros i; [done|].
  assert (~ P x -> filter P l = []) as Hnone.
  { intros Hnx. destruct (filter P l) as [|y l'] eqn:Hf; [done|].
    assert (y ∈ filter P l) as Hy by (rewrite Hf; left).
    apply list_elem_of_filter in Hy as [Hpy Hy].
    rewrite Forall_forall in Hx. destruct Hnx. apply (Hdown x y); auto. }
  destruct i as [|i]; simpl.
  - intros [= ->]. rewrite filter_cons. case_decide as Hp; simpl.
    + split; [done|lia].
    + rewrite Hnone by done. simpl. split; [lia|done].
  - intros Hi. rewrite filter_cons. case_decide as Hp; simpl.
    + rewrite <- (IH i Hi). lia.
    + rewrite Hnone by done. simpl. split; [lia|].
      intros Hr. exfalso. apply Hp, (Hdown x r); [|done].
      rewrite Forall_forall in Hx. apply Hx. by eapply list_elem_of_lookup_2.
Qed.

(** The positions of [block_range] are those of the row ids of the block. *)
Lemma block_range_spec (ix : DeltaIndex.t) (block : Z) (i : nat) (r : Z) :
  DeltaIndex.wf ix ->
  DeltaIndex.rids ix !! i = Some r ->
  (DeltaIndex.block_range ix block).1 <= Z.of_nat i
    < (DeltaIndex.block_range ix block).2
  <-> Z.shiftr r 16 = block.
Proof.
  intros (_ & Hs & _) Hi. unfold DeltaIndex.block_range. simpl.
  pose proof (sorted_filter_prefix (fun r => Z.shiftr r 16 < block)
                (DeltaIndex.rids ix) i r) as H1.
  pose proof (sorted_filter_prefix (fun r => Z.shiftr r 16 <= block)
                (DeltaIndex.rids ix) i r) as H2.
  simpl in H1, H2.
  rewrite <- Nat2Z.inj_le, <- Nat2Z.inj_lt.
  assert (forall x y, x < y -> Z.shiftr x 16 <= Z.shiftr y 16) as Hm.
  { intros x y Hxy. apply shiftr16_mono. lia. }
  specialize (H1 ltac:(intros x y Hxy; specialize (Hm x y Hxy); lia) Hs Hi).
  specialize (H2 ltac:(intros x y Hxy; specialize (Hm x y Hxy); lia) Hs Hi).
  lia.
Qed.

Lemma sorted_lookup_inj (l : list Z) (i j : nat) (r : Z) :
  StronglySorted Z.lt l -> l !! i = Some r -> l !! j = Some r -> i = j.
Proof.
  intros Hs. eapply NoDup_lookup.
  clear i j r. induction Hs as [|x l Hs IH Hx]; constructor; [|done].
  intros Hin. rewrite Forall_forall in Hx. specialize (Hx x Hin). lia.
Qed.

(** ** Outcomes *)

Lemma obind_Done {A B : Type} (m : outcome A) (k : A -> outcome B) (b : B) :
  obind m k = Done b <-> exists a, m = Done a /\ k a = Done b.
Proof.
  destruct m; simpl; split; try done.
  - intros Hk. by exists a.
  - by intros (a' & [= ->] & Hk).
  - by intros (a' & ? & _).
  - by intros (a' & ? & _).
Qed.

Lemma defined_Done {A : Type} (o : option A) (a : A) :
  defined o = Done a <-> o = Some a.
Proof. destruct o; simpl; split; congruence. Qed.

Ltac inv_done :=
  repeat match goal with
    | H : obind _ _ = Done _ |- _ =>
        let a := fresh "a" in
        let Ha := fresh "Ha" in
        apply obind_Done in H as (a & Ha & H)
    | H : defined _ = Done _ |- _ => apply defined_Done in H
    | H : Done _ = Done _ |- _ => injection H as H
    end.

(** ** Writes to a block *)

Lemma bool_set_get_same (b b' : bytes) (i : nat) (v : bool) :
  bool_set b i v = Some b' -> bool_get b' i = Some v.
Proof.
  unfold bool_set, bool_get. case_decide; [|done]. intros [= <-].
  rewrite list_lookup_insert_eq by done. by destruct v.
Qed.

Lemma bool_set_get_other (b b' : bytes) (i j : nat) (v : bool) :
  bool_set b i v = Some b' -> i <> j -> bool_get b' j = bool_get b j.
Proof.
  unfold bool_set, bool_get. case_decide; [|done]. intros [= <-] Hij.
  by rewrite list_lookup_insert_ne.
Qed.

Lemma write_null_same (cb cb' : ColumnBlock) (pos : Z) (v : bool) :
  write_null cb pos v = Done cb' ->
  is_null cb' pos = Done v /\ _data cb' = _data cb.
Proof.
  unfold write_null. intros H. inv_done. subst cb'. unfold is_null; simpl.
  split; [|done]. by erewrite bool_set_get_same.
Qed.

Lemma write_null_other (cb cb' : ColumnBlock) (pos idx : Z) (v : bool) :
  write_null cb pos v = Done cb' -> Z.to_nat pos <> Z.to_nat idx ->
  is_null cb' idx = is_null cb idx /\ _data cb' = _data cb.
Proof.
  unfold write_null. intros H Hne. inv_done. subst cb'. unfold is_null; simpl.
  split; [|done]. rewrite Ha. by erewrite bool_set_get_other.
Qed.

Lemma write_data_same (ST : ctype) (cb cb' : ColumnBlock) (pos i : Z)
    (delta : ColumnDelta) :
  write_data ST cb pos (data delta) i = Done cb' ->
  _nulls cb' = _nulls cb /\
  exists v, delta_value ST delta i = Some v /\ data_at ST cb' pos = Some v.
Proof.
  unfold write_data, delta_value, data_at. intros H. inv_done. subst cb'. simpl.
  split; [done|]. exists a0. rewrite Ha. simpl. split; [done|].
  eapply as_get_as_set_same; [|done]. by eapply as_get_length.
Qed.

Lemma write_data_other (ST : ctype) (cb cb' : ColumnBlock) (pos idx i : Z)
    (dd : Buffer) :
  write_data ST cb pos dd i = Done cb' -> Z.to_nat pos <> Z.to_nat idx ->
  _nulls cb' = _nulls cb /\ data_at ST cb' idx = data_at ST cb idx.
Proof.
  unfold write_data, data_at. intros H Hne. inv_done. subst cb'. simpl.
  split; [done|]. rewrite Ha1. simpl.
  eapply as_get_as_set_other; [|done|done]. by eapply as_get_length.
Qed.

Lemma same_row_refl (ST : ctype) (idx : Z) (cb : ColumnBlock) :
  same_row ST idx cb cb.
Proof. by split. Qed.

Lemma same_row_trans (ST : ctype) (idx : Z) (cb1 cb2 cb3 : ColumnBlock) :
  same_row ST idx cb1 cb2 -> same_row ST idx cb2 cb3 -> same_row ST idx cb1 cb3.
Proof. intros [H1 H2] [H3 H4]. split; congruence. Qed.

Lemma row_written_same_row (Nullable : bool) (ST : ctype) (delta : ColumnDelta)
    (i idx : Z) (cb cb' : ColumnBlock) :
  same_row ST idx cb cb' ->
  row_written Nullable ST delta i cb idx ->
  row_written Nullable ST delta i cb' idx.
Proof.
  intros [Hn Hd]. unfold row_written. rewrite Hn, Hd. done.
Qed.

Lemma is_null_nulls (cb cb' : ColumnBlock) (idx : Z) :
  _nulls cb' = _nulls cb -> is_null cb' idx = is_null cb idx.
Proof. unfold is_null. by intros ->. Qed.

Lemma data_at_data (ST : ctype) (cb cb' : ColumnBlock) (idx : Z) :
  _data cb' = _data cb -> data_at ST cb' idx = data_at ST cb idx.
Proof. unfold data_at. by intros ->. Qed.

Lemma poses_lookup (ix : DeltaIndex.t) (i : nat) (pos : Z) :
  DeltaIndex.poses ix !! i = Some pos ->
  exists r, DeltaIndex.rids ix !! i = Some r /\ pos = Z.land r 0xffff.
Proof.
  unfold DeltaIndex.poses. rewrite list_lookup_fmap.
  destruct (DeltaIndex.rids ix !! i) as [r|]; simpl; [|done].
  intros [= <-]. by exists r.
Qed.

(** One iteration writes the row of its entry and no other row. *)
Lemma delta_body_effect (Nullable : bool) (ST : ctype) (delta : ColumnDelta)
    (i : Z) (cb cb' : ColumnBlock) :
  delta_body Nullable ST delta i cb = Done cb' ->
  exists r,
    DeltaIndex.rids (index delta) !! Z.to_nat i = Some r /\
    (forall idx, 0 <= idx -> Z.land r 0xffff <> idx -> same_row ST idx cb cb') /\
    row_written Nullable ST delta i cb' (Z.land r 0xffff).
Proof.
  unfold delta_body, row_written.
  destruct Nullable; [destruct (nulls delta) as [dn|] eqn:Hdn|].
  - unfold row_with_nulls. intros H. inv_done.
    apply poses_lookup in Ha as (r & Hr & ->). exists r. split; [done|].
    pose proof (offset_nonneg r) as Hr0.
    destruct a0.
    + split.
      * intros idx Hidx Hne.
        destruct (write_null_other _ _ _ idx _ H) as [H1 H2]; [lia|].
        split; [done|]. by apply data_at_data.
      * left. apply write_null_same in H as [H1 _]. done.
    + inv_done. split.
      * intros idx Hidx Hne.
        destruct (write_null_other _ _ _ idx _ Ha) as [H1 H2]; [lia|].
        destruct (write_data_other _ _ _ _ idx _ _ H) as [H3 H4]; [lia|].
        split.
        -- rewrite <- H1. by apply is_null_nulls.
        -- rewrite H4. by apply data_at_data.
      * right. apply write_null_same in Ha as [H1 _].
        apply write_data_same in H as [H3 H4].
        split; [done|]. split; [|done].
        rewrite <- H1. by apply is_null_nulls.
  - unfold row_without_nulls. intros H. inv_done.
    apply poses_lookup in Ha as (r & Hr & ->). exists r. split; [done|].
    pose proof (offset_nonneg r) as Hr0. split.
    + intros idx Hidx Hne.
      destruct (write_null_other _ _ _ idx _ Ha0) as [H1 H2]; [lia|].
      destruct (write_data_other _ _ _ _ idx _ _ H) as [H3 H4]; [lia|].
      split.
      * rewrite <- H1. by apply is_null_nulls.
      * rewrite H4. by apply data_at_data.
    + apply write_null_same in Ha0 as [H1 _].
      apply write_data_same in H as [H3 H4].
      split; [|done]. rewrite <- H1. by apply is_null_nulls.
  - unfold row_plain. intros H. inv_done.
    apply poses_lookup in Ha as (r & Hr & ->). exists r. split; [done|].
    pose proof (offset_nonneg r) as Hr0. split.
    + intros idx Hidx Hne.
      destruct (write_data_other _ _ _ _ idx _ _ H) as [H3 H4]; [lia|].
      split; [|done]. by apply is_null_nulls.
    + apply write_data_same in H as [H3 H4]. done.
Qed.

(** ** The patch loops *)

Lemma patch_rows_frame (ST : ctype) (idx : Z)
    (body : Z -> ColumnBlock -> outcome ColumnBlock)
    (n : nat) (s : Z) (cb cb' : ColumnBlock) :
  (forall i cb1 cb2, s <= i < s + Z.of_nat n ->
     body i cb1 = Done cb2 -> same_row ST idx cb1 cb2) ->
  patch_rows body n s cb = Done cb' -> same_row ST idx cb cb'.
Proof.
  revert s cb. induction n as [|n IH]; intros s cb Hbody; simpl.
  - intros [= ->]. apply same_row_refl.
  - intros H. inv_done.
    eapply same_row_trans.
    + eapply Hbody; [|done]. lia.
    + eapply IH; [|done]. intros i cb1 cb2 Hi. apply Hbody. lia.
Qed.

Lemma patch_rows_split (body : Z -> ColumnBlock -> outcome ColumnBlock)
    (n : nat) (s i0 : Z) (cb cb' : ColumnBlock) :
  s <= i0 < s + Z.of_nat n ->
  patch_rows body n s cb = Done cb' ->
  exists cb1 cb2,
    patch_rows body (Z.to_nat (i0 - s)) s cb = Done cb1 /\
    body i0 cb1 = Done cb2 /\
    patch_rows body (Z.to_nat (s + Z.of_nat n - i0 - 1)) (i0 + 1) cb2 = Done cb'.
Proof.
  revert s cb. induction n as [|n IH]; intros s cb Hi; [lia|].
  simpl. intros H. inv_done.
  destruct (decide (i0 = s)) as [->|Hne].
  - exists cb, a. replace (Z.to_nat (s - s)) with 0%nat by lia.
    replace (Z.to_nat (s + Z.of_nat (S n) - s - 1)) with n by lia.
    done.
  - destruct (IH (s + 1) a ltac:(lia) H) as (cb1 & cb2 & H1 & H2 & H3).
    exists cb1, cb2.
    replace (Z.to_nat (i0 - s)) with (S (Z.to_nat (i0 - (s + 1)))) by lia.
    replace (Z.to_nat (s + Z.of_nat (S n) - i0 - 1))
      with (Z.to_nat (s + 1 + Z.of_nat n - i0 - 1)) by lia.
    simpl. rewrite Ha. simpl. done.
Qed.

Lemma patch_delta_eq (Nullable : bool) (ST : ctype) (delta : ColumnDelta)
    (block : Z) (cb : ColumnBlock) :
  patch_delta Nullable ST delta block cb =
  let range := DeltaIndex.block_range (index delta) block in
  if decide (range.2 = range.1) then Done cb
  else patch_rows (delta_body Nullable ST delta)
         (Z.to_nat (range.2 - range.1)) range.1 cb.
Proof.
  unfold patch_delta, delta_body.
  destruct (DeltaIndex.block_range (index delta) block) as [s e]. simpl.
  case_decide; [done|].
  destruct Nullable; [destruct (nulls delta)|]; done.
Qed.

Lemma block_range_nonneg (ix : DeltaIndex.t) (block : Z) :
  0 <= (DeltaIndex.block_range ix block).1.
Proof. unfold DeltaIndex.block_range. simpl. lia. Qed.

(** A delta that does not contain [rid] leaves the row of [rid] alone. *)
Lemma patch_delta_miss (Nullable : bool) (ST : ctype) (delta : ColumnDelta)
    (rid : Z) (cb cb' : ColumnBlock) :
  DeltaIndex.wf (index delta) ->
  0 <= rid ->
  find_idx delta rid = DeltaIndex.npos ->
  patch_delta Nullable ST delta (Z.shiftr rid 16) cb = Done cb' ->
  same_row ST (Z.land rid 0xffff) cb cb'.
Proof.
  intros Hwf Hrid Hmiss. rewrite patch_delta_eq. cbv zeta.
  pose proof (block_range_nonneg (index delta) (Z.shiftr rid 16)) as Hs.
  case_decide as He.
  { intros [= ->]. apply same_row_refl. }
  apply patch_rows_frame. intros i cb1 cb2 Hi Hbody.
  apply delta_body_effect in Hbody as (r & Hr & Hframe & _).
  apply Hframe; [apply offset_nonneg|]. intros Hoff.
  assert (Z.shiftr r 16 = Z.shiftr rid 16) as Hblock.
  { apply (block_range_spec (index delta) _ (Z.to_nat i) r Hwf Hr). lia. }
  destruct Hwf as (Hbound & Hsorted & Hlen).
  assert (0 <= r) as Hr0.
  { rewrite Forall_forall in Hbound.
    apply Hbound. by eapply list_elem_of_lookup_2. }
  assert (r = rid) as -> by by apply rid_same_block.
  eapply (find_from_miss (DeltaIndex.rids (index delta)) rid 0); [lia|lia|done|].
  by eapply list_elem_of_lookup_2.
Qed.

(** A delta that contains [rid] leaves in the row of [rid] what its entry
    for [rid] writes. *)
Lemma patch_delta_hit (Nullable : bool) (ST : ctype) (delta : ColumnDelta)
    (rid : Z) (cb cb' : ColumnBlock) :
  DeltaIndex.wf (index delta) ->
  0 <= rid ->
  find_idx delta rid <> DeltaIndex.npos ->
  patch_delta Nullable ST delta (Z.shiftr rid 16) cb = Done cb' ->
  row_written Nullable ST delta (find_idx delta rid) cb' (Z.land rid 0xffff).
Proof.
  intros Hwf Hrid Hhit. rewrite patch_delta_eq. cbv zeta.
  pose proof (block_range_nonneg (index delta) (Z.shiftr rid 16)) as Hs.
  destruct (find_from_hit _ _ _ Hhit) as (i0 & Hpos & Hi0).
  unfold find_idx, DeltaIndex.find_idx. rewrite Hpos, Z.add_0_l.
  pose proof (proj2 (block_range_spec (index delta) _ i0 rid Hwf Hi0) eq_refl)
    as Hrange.
  case_decide as He; [lia|]. intros Hrows.
  apply (patch_rows_split _ _ _ (Z.of_nat i0)) in Hrows
    as (cb1 & cb2 & _ & Hbody & Hrest); [|lia].
  apply delta_body_effect in Hbody as (r & Hr & _ & Hw).
  rewrite Nat2Z.id in Hr. assert (r = rid) as -> by congruence.
  eapply row_written_same_row; [|exact Hw].
  eapply patch_rows_frame; [|exact Hrest].
  intros i cb3 cb4 Hi Hbody.
  apply delta_body_effect in Hbody as (r & Hr' & Hframe & _).
  apply Hframe; [apply offset_nonneg|]. intros Hoff.
  assert (Z.shiftr r 16 = Z.shiftr rid 16) as Hblock.
  { apply (block_range_spec (index delta) _ (Z.to_nat i) r Hwf Hr'). lia. }
  destruct Hwf as (Hbound & Hsorted & Hlen).
  assert (0 <= r) as Hr0.
  { rewrite Forall_forall in Hbound.
    apply Hbound. by eapply list_elem_of_lookup_2. }
  assert (r = rid) as -> by by apply rid_same_block.
  pose proof (sorted_lookup_inj _ _ _ _ Hsorted Hr' Hi0). lia.
Qed.

Lemma patch_deltas_app (Nullable : bool) (ST : ctype)
    (ds1 ds2 : list ColumnDelta) (block : Z) (cb : ColumnBlock) :
  patch_deltas Nullable ST (ds1 ++ ds2) block cb =
  let* cb1 := patch_deltas Nullable ST ds1 block cb in
  patch_deltas Nullable ST ds2 block cb1.
Proof.
  revert cb. induction ds1 as [|d ds1 IH]; intros cb; simpl; [done|].
  destruct (patch_delta Nullable ST d block cb); simpl; auto.
Qed.

Lemma patch_deltas_miss (Nullable : bool) (ST : ctype)
    (ds : list ColumnDelta) (rid : Z) (cb cb' : ColumnBlock) :
  Forall (fun d => DeltaIndex.wf (index d)) ds ->
  0 <= rid ->
  Forall (fun d => find_idx d rid = DeltaIndex.npos) ds ->
  patch_deltas Nullable ST ds (Z.shiftr rid 16) cb = Done cb' ->
  same_row ST (Z.land rid 0xffff) cb cb'.
Proof.
  intros Hwf Hrid Hmiss. revert cb.
  induction ds as [|d ds IH]; intros cb; simpl.
  - intros [= ->]. apply same_row_refl.
  - intros H. inv_done.
    apply Forall_cons in Hwf as [Hd Hwf].
    apply Forall_cons in Hmiss as [Hm Hmiss].
    eapply same_row_trans.
    + by eapply patch_delta_miss.
    + by eapply IH.
Qed.

(** The most recent delta that contains [rid] decides the row of [rid]
    in the patched block. *)
Lemma patch_deltas_last_wins (Nullable : bool) (ST : ctype)
    (ds1 ds2 : list ColumnDelta) (d : ColumnDelta) (rid : Z)
    (cb cb' : ColumnBlock) :
  Forall (fun d => DeltaIndex.wf (index d)) (d :: ds2) ->
  0 <= rid ->
  find_idx d rid <> DeltaIndex.npos ->
  Forall (fun d => find_idx d rid = DeltaIndex.npos) ds2 ->
  patch_deltas Nullable ST (ds1 ++ d :: ds2) (Z.shiftr rid 16) cb = Done cb' ->
  row_written Nullable ST d (find_idx d rid) cb' (Z.land rid 0xffff).
Proof.
  intros Hwf Hrid Hhit Hmiss. rewrite patch_deltas_app. simpl.
  apply Forall_cons in Hwf as [Hd Hwf].
  intros H. inv_done.
  eapply row_written_same_row.
  - by eapply patch_deltas_miss.
  - by eapply patch_delta_hit.
Qed.

(** ** The structure of [get_block] *)

Lemma base_only_scan_true (ds : list ColumnDelta) (block : Z) :
  base_only_scan ds block = true <->
  Forall (fun d => contains_block d block = false) ds.
Proof.
  induction ds as [|d ds IH]; simpl.
  - split; [constructor|done].
  - rewrite Forall_cons. destruct (contains_block d block).
    + split; [done|]. by intros [? _].
    + rewrite IH. tauto.
Qed.

Lemma contains_block_hit (d : ColumnDelta) (rid : Z) :
  DeltaIndex.wf (index d) ->
  find_idx d rid <> DeltaIndex.npos ->
  contains_block d (Z.shiftr rid 16) = true.
Proof.
  intros Hwf Hhit. destruct (find_from_hit _ _ _ Hhit) as (i0 & _ & Hi0).
  pose proof (proj2 (block_range_spec (index d) _ i0 rid Hwf Hi0) eq_refl)
    as Hrange.
  unfold contains_block.
  destruct (DeltaIndex.block_range (index d) (Z.shiftr rid 16)) as [s e].
  simpl in Hrange. apply bool_decide_eq_true. lia.
Qed.

Lemma copy_to_status (page dest : ColumnBlock) (nrows esize : nat)
    (st : Status) (cb : ColumnBlock) :
  copy_to page dest nrows esize = Done (st, cb) -> st = OK.
Proof.
  unfold copy_to. intros H. inv_done.
  repeat (case_decide || case_match); congruence.
Qed.

Lemma get_block_inv (T : ctype) (Nullable : bool) (ST : ctype) (mem_ok : bool)
    (h : store) (reader : Reader) (nrows : nat) (block : Z)
    (cbh : ColumnBlockHolder) (h' : store) (cbh' : ColumnBlockHolder)
    (st : Status) :
  get_block T Nullable ST mem_ok h reader nrows block cbh = Done (h', cbh', st) ->
  exists page, _base reader !! Z.to_nat block = Some page /\
  ((base_only_scan (_deltas reader) block = true /\
    h' = h /\ cbh' = init page false /\ st = OK) \/
   (base_only_scan (_deltas reader) block = false /\
    exists fresh_needed h1 l cb pg cb0 cb',
      need_new h cbh nrows = Done fresh_needed /\
      (h1, cbh') = (if (fresh_needed : bool)
                    then fresh_block T mem_ok h cbh nrows
                    else (h, cbh)) /\
      _cb cbh' = Some l /\
      h1 !! l = Some cb /\
      h1 !! page = Some pg /\
      copy_to pg cb nrows (sizeof ST) = Done (OK, cb0) /\
      patch_deltas Nullable ST (_deltas reader) block cb0 = Done cb' /\
      h' = <[l := cb']> h1 /\ st = OK)).
Proof.
  unfold get_block. intros H. inv_done. exists a. split; [done|].
  destruct (base_only_scan (_deltas reader) block).
  - left. injection H as <- <- <-. done.
  - right. split; [done|]. inv_done.
    match goal with
    | Hc : copy_to ?pg ?cb _ _ = Done ?res |- _ =>
        destruct res as [st0 cb0];
        pose proof (copy_to_status _ _ _ _ _ _ Hc) as ->
    end.
    simpl in H. inv_done. subst h' cbh' st.
    set (hc := if a0 then fresh_block T mem_ok h cbh nrows else (h, cbh)) in *.
    exists a0, hc.1. do 5 eexists.
    repeat split; try eassumption; try done.
    symmetry. apply (surjective_pairing hc).
Qed.

(** ** The reverse scan of [get] and [equals] *)

Lemma get_scan_miss (Nullable : bool) (ds : list ColumnDelta) (rid : Z) (n : nat) :
  (n <= length ds)%nat ->
  Forall (fun d => find_idx d rid = DeltaIndex.npos) ds ->
  get_scan Nullable ds rid n = None.
Proof.
  intros Hn Hmiss. induction n as [|n IH]; simpl; [done|].
  destruct (lookup_lt_is_Some_2 ds n ltac:(lia)) as [d Hd]. rewrite Hd.
  rewrite Forall_forall in Hmiss.
  rewrite decide_False; [apply IH; lia|].
  intros Hne. apply Hne, Hmiss. by eapply list_elem_of_lookup_2.
Qed.

Lemma get_scan_hit (Nullable : bool) (ds1 ds2 : list ColumnDelta)
    (d : ColumnDelta) (rid : Z) (k : nat) :
  find_idx d rid <> DeltaIndex.npos ->
  Forall (fun d => find_idx d rid = DeltaIndex.npos) ds2 ->
  (k <= length ds2)%nat ->
  get_scan Nullable (ds1 ++ d :: ds2) rid (S (length ds1 + k)) =
  Some (if Nullable
        then let* isnull := delta_is_null d (find_idx d rid) in
             if (isnull : bool) then Done nullptr
             else Done (in_delta (length ds1) (find_idx d rid))
        else Done (in_delta (length ds1) (find_idx d rid))).
Proof.
  intros Hhit Hmiss. induction k as [|k IH]; intros Hk.
  - rewrite Nat.add_0_r. simpl. rewrite list_lookup_middle by done.
    by rewrite decide_True.
  - destruct (lookup_lt_is_Some_2 ds2 k ltac:(lia)) as [d' Hd'].
    replace (S (length ds1 + S k)) with (S (S (length ds1 + k))) by lia.
    cbn [get_scan].
    replace (S (length ds1 + k)) with (length ds1 + S k)%nat at 1 by lia.
    rewrite lookup_app_r by lia.
    replace (length ds1 + S k - length ds1)%nat with (S k) by lia.
    change ((d :: ds2) !! S k) with (ds2 !! k). rewrite Hd'.
    rewrite Forall_forall in Hmiss.
    rewrite decide_False.
    + apply IH. lia.
    + intros Hne. apply Hne, Hmiss. by eapply list_elem_of_lookup_2.
Qed.

Lemma equals_scan_nullable (T : ctype) (ds : list ColumnDelta) (rid : Z)
    (rhs_value : outcome (list Z)) (n : nat) :
  (n <= length ds)%nat ->
  equals_scan T true ds rid rhs_value n = None \/
  equals_scan T true ds rid rhs_value n = Some Abort.
Proof.
  induction n as [|n IH]; intros Hn; simpl; [by left|].
  destruct (lookup_lt_is_Some_2 ds n ltac:(lia)) as [d Hd]. rewrite Hd.
  case_decide; [by right|]. apply IH. lia.
Qed.

Lemma equals_scan_get_scan (T : ctype) (h : gmap nat ColumnBlock)
    (reader : Reader) (rid : Z) (rhs_value : outcome (list Z)) (n : nat) :
  match get_scan false (_deltas reader) rid n,
        equals_scan T false (_deltas reader) rid rhs_value n with
  | None, None => True
  | Some g, Some e =>
      e = (let* p := g in
           let* lhs := deref T h reader p in
           let* v := rhs_value in
           Done (typed_eq T lhs v))
  | _, _ => False
  end.
Proof.
  induction n as [|n IH]; simpl; [done|].
  destruct (_deltas reader !! n) as [d|] eqn:Hd; [|done].
  case_decide; [|done]. simpl. rewrite Hd. simpl.
  unfold elem_equals. destruct (data d) as [b|]; simpl; [|done].
  by destruct (as_get _ _ _).
Qed.

(** With the logical and the storage type the same, [equals] on a
    non-nullable column compares the value [get] points to. *)
Lemma equals_agrees_with_get_same_type (T : ctype) (h : gmap nat ColumnBlock)
    (reader : Reader) (rid : Z) (rhs : option (list Z)) (rhs_idx : nat) :
  equals T false T h reader rid rhs rhs_idx =
  let* p := get T false T h reader rid in
  let* lhs := deref T h reader p in
  let* v := rhs_at T rhs rhs_idx in
  Done (typed_eq T lhs v).
Proof.
  unfold equals, get, TypedColumnEquals, TypedColumnGet.
  pose proof (equals_scan_get_scan T h reader rid (rhs_at T rhs rhs_idx)
                (length (_deltas reader))) as Hscan.
  destruct (get_scan _ _ _ _) as [g|], (equals_scan _ _ _ _ _ _) as [e|];
    try done.
  simpl. destruct (base_block h reader (Z.shiftr rid 16)) as [page| |] eqn:Hp;
    simpl; [|done|done].
  rewrite Hp. simpl.
  unfold elem_equals. destruct (_data page) as [b|]; simpl; [|done].
  by destruct (as_get _ _ _).
Qed.

(** ** Point lookup *)

(** C3, as the code has it: [get(rid)] scans the delta vector from the
    most recent delta to the oldest.  The first delta whose index
    contains [rid], that is the delta [d] of [_deltas = ds1 ++ d :: ds2]
    with no delta of [ds2] containing [rid], decides the result:
    [nullptr] if the column is nullable and the delta's null buffer has
    the flag of the position set, else the address of the position's
    value in that delta.  If no delta contains [rid], the result comes
    from the base block [rid >> 16]: [nullptr] if the column is nullable
    and the block's null bitmap marks [rid & 0xffff], else the address of
    that offset in the block's data.  An absent null buffer marks no row;
    a non-nullable reader does not read the null buffers. *)
Theorem get_visibility_rule (T : ctype) (Nullable : bool) (ST : ctype)
    (h : gmap nat ColumnBlock) (reader : Reader) (rid : Z) :
  (forall ds1 d ds2 flag,
     _deltas reader = ds1 ++ d :: ds2 ->
     find_idx d rid <> DeltaIndex.npos ->
     Forall (fun d' => find_idx d' rid = DeltaIndex.npos) ds2 ->
     (Nullable = true ->
      match nulls d with
      | Some dn => bool_get dn (Z.to_nat (find_idx d rid)) = Some flag
      | None => flag = false
      end) ->
     get T Nullable ST h reader rid =
     Done (if Nullable && flag then nullptr
           else in_delta (length ds1) (find_idx d rid)))
  /\
  (forall l page marked,
     Forall (fun d => find_idx d rid = DeltaIndex.npos) (_deltas reader) ->
     _base reader !! Z.to_nat (Z.shiftr rid 16) = Some l ->
     h !! l = Some page ->
     (Nullable = true ->
      match _nulls page with
      | Some b => bool_get b (Z.to_nat (Z.land rid 0xffff)) = Some marked
      | None => marked = false
      end) ->
     get T Nullable ST h reader rid =
     Done (if Nullable && marked then nullptr
           else in_base (Z.shiftr rid 16) (Z.land rid 0xffff))).
Proof.
  unfold get, TypedColumnGet. split.
  - intros ds1 d ds2 flag Hds Hhit Hmiss Hflag. rewrite Hds.
    rewrite length_app. simpl.
    replace (length ds1 + S (length ds2))%nat
      with (S (length ds1 + length ds2)) by lia.
    rewrite (get_scan_hit Nullable ds1 ds2 d rid (length ds2)) by done.
    destruct Nullable; simpl; [|done].
    specialize (Hflag eq_refl). unfold delta_is_null.
    destruct (nulls d) as [dn|].
    + rewrite Hflag. simpl. by destruct flag.
    + by rewrite Hflag.
  - intros l page marked Hmiss Hl Hpage Hmarked.
    rewrite get_scan_miss by done. unfold base_block.
    rewrite Hl. simpl. rewrite Hpage. simpl.
    destruct Nullable; simpl; [|done].
    specialize (Hmarked eq_refl). unfold is_null.
    destruct (_nulls page) as [b|].
    + rewrite Hmarked. simpl. by destruct marked.
    + by rewrite Hmarked.
Qed.

Lemma get_visibility_rule_witness :
  get Int32 true Int32 store_marked reader_v2 1 = Done nullptr /\
  get Int32 true Int32 store_marked reader_v2 3 = Done (in_delta 1 1) /\
  get Int32 true Int32 store_marked reader_v1 1 = Done (in_delta 0 0) /\
  get Int32 true Int32 store_marked reader_v2 2 = Done nullptr /\
  get Int32 true Int32 store_marked reader_v2 0 = Done (in_base 0 0) /\
  get Int32 false Int32 store_marked reader_v2 2 = Done (in_base 0 2).
Proof.
  split; [|split; [|split; [|split; [|split]]]].
  - apply (proj1 (get_visibility_rule Int32 true Int32 store_marked reader_v2 1)
             [deltaA] deltaB [] true).
    + reflexivity.
    + vm_compute. discriminate.
    + constructor.
    + reflexivity.
  - apply (proj1 (get_visibility_rule Int32 true Int32 store_marked reader_v2 3)
             [deltaA] deltaB [] false).
    + reflexivity.
    + vm_compute. discriminate.
    + constructor.
    + reflexivity.
  - apply (proj1 (get_visibility_rule Int32 true Int32 store_marked reader_v1 1)
             [] deltaA [] false).
    + reflexivity.
    + vm_compute. discriminate.
    + constructor.
    + reflexivity.
  - apply (proj2 (get_visibility_rule Int32 true Int32 store_marked reader_v2 2)
             0%nat base_marked true).
    + repeat constructor.
    + reflexivity.
    + reflexivity.
    + reflexivity.
  - apply (proj2 (get_visibility_rule Int32 true Int32 store_marked reader_v2 0)
             0%nat base_marked false).
    + repeat constructor.
    + reflexivity.
    + reflexivity.
    + reflexivity.
  - apply (proj2 (get_visibility_rule Int32 false Int32 store_marked reader_v2 2)
             0%nat base_marked true).
    + repeat constructor.
    + reflexivity.
    + reflexivity.
    + discriminate.
Defined.

(** The fallback as C3 words it, without the nullable gate, fails on a
    non-nullable reader: no delta of the reader contains row 2, the null
    bitmap of base block 0 marks row 2, and [get(2)] is the address of
    the row in the block's data, not a null pointer. *)
Lemma get_nonnullable_ignores_base_bitmap :
  Forall (fun d => find_idx d 2 = DeltaIndex.npos) (_deltas reader_v2) /\
  base_block store_marked reader_v2 (Z.shiftr 2 16) = Done base_marked /\
  _nulls base_marked = Some [0; 0; 1; 0] /\
  is_null base_marked (Z.land 2 0xffff) = Done true /\
  get Int32 false Int32 store_marked reader_v2 2 = Done (in_base 0 2) /\
  get Int32 false Int32 store_marked reader_v2 2 <> Done nullptr.
Proof.
  repeat split; try reflexivity.
  - repeat constructor.
  - vm_compute. discriminate.
Qed.

(** ** Equality and hashing *)

(** C7: on a nullable column, [equals] dies in [CHECK(false)], whether a
    delta contains the row or the base block is reached; it returns no
    value. *)
Theorem equals_nullable_aborts (T ST : ctype) (h : gmap nat ColumnBlock)
    (reader : Reader) (rid : Z) (rhs : option (list Z)) (rhs_idx : nat) :
  equals T true ST h reader rid rhs rhs_idx = Abort.
Proof.
  unfold equals, TypedColumnEquals.
  destruct (equals_scan_nullable T (_deltas reader) rid
              (rhs_at T rhs rhs_idx) (length (_deltas reader)))
    as [-> | ->]; done.
Qed.

Lemma fnv_hash64_range (v : list Z) (hash : Z) :
  0 <= hash < 2 ^ 64 -> 0 <= HashUtil.fnv_hash64 v hash < 2 ^ 64.
Proof.
  revert hash. induction v as [|x v IH]; intros hash Hh; simpl; [done|].
  apply IH. apply Z.mod_pos_bound. lia.
Qed.

(** C9: [hashcode] is a function of the raw bytes of the referenced
    value.  When [T] and [ST] are the same type it is the 64-bit FNV
    fingerprint, from seed 0, of the [sizeof(T)] bytes at [rhs[rhs_idx]];
    any two calls that see the same bytes there return the same value.
    When the types differ it returns 0 for every input. *)
Theorem hashcode_of_raw_bytes (T ST : ctype) (rhs : option (list Z))
    (rhs_idx : nat) :
  (T = ST -> forall v,
     rhs_at T rhs rhs_idx = Done v ->
     hashcode T ST rhs rhs_idx = Done (HashUtil.fnv_hash64 v 0) /\
     length v = sizeof T /\
     0 <= HashUtil.fnv_hash64 v 0 < 2 ^ 64) /\
  (forall rhs' rhs_idx',
     rhs_at T rhs' rhs_idx' = rhs_at T rhs rhs_idx ->
     hashcode T ST rhs' rhs_idx' = hashcode T ST rhs rhs_idx) /\
  (T <> ST -> hashcode T ST rhs rhs_idx = Done 0).
Proof.
  unfold hashcode, TypedColumnHashcode, is_same. split; [|split].
  - intros -> v Hv. rewrite bool_decide_eq_true_2 by done.
    rewrite Hv. simpl. split; [done|]. split.
    + unfold rhs_at in Hv. inv_done. by eapply as_get_length.
    + apply fnv_hash64_range. lia.
  - intros rhs' rhs_idx' Heq. by rewrite Heq.
  - intros Hne. by rewrite bool_decide_eq_false_2.
Qed.

Lemma hashcode_of_raw_bytes_witness :
  hashcode Int64 Int64 (Some (le_bytes 8 7)) 0 = Done 15626207848773125863 /\
  hashcode Int64 Int64 (Some (le_bytes 8 1 ++ le_bytes 8 7)) 1 =
    hashcode Int64 Int64 (Some (le_bytes 8 7)) 0 /\
  hashcode Int64 Int32 (Some (le_bytes 8 7)) 0 = Done 0.
Proof.
  split; [|split].
  - apply (proj1 (hashcode_of_raw_bytes Int64 Int64 (Some (le_bytes 8 7)) 0)
             eq_refl (le_bytes 8 7)).
    reflexivity.
  - apply (proj1 (proj2 (hashcode_of_raw_bytes Int64 Int64
                           (Some (le_bytes 8 7)) 0))).
    reflexivity.
  - apply (proj2 (proj2 (hashcode_of_raw_bytes Int64 Int32
                           (Some (le_bytes 8 7)) 0))).
    discriminate.
Defined.

(** ** Block materialization *)

(** C5: when no delta of the reader contains the block, [get_block]
    makes the caller's holder a non-owning reference to the base block
    itself and returns OK; the store is left as it was, so nothing is
    allocated and no buffer is copied. *)
Theorem get_block_base_only_shares (T : ctype) (Nullable : bool) (ST : ctype)
    (mem_ok : bool) (h : gmap nat ColumnBlock) (reader : Reader)
    (nrows : nat) (block : Z) (cbh : ColumnBlockHolder) (page : nat) :
  0 <= block ->
  Forall (fun d => contains_block d block = false) (_deltas reader) ->
  _base reader !! Z.to_nat block = Some page ->
  get_block T Nullable ST mem_ok h reader nrows block cbh =
  Done (h, {| _cb := Some page; _own := false |}, OK).
Proof.
  intros _ Hnone Hpage. unfold get_block.
  rewrite (proj2 (base_only_scan_true _ _) Hnone). by rewrite Hpage.
Qed.

Lemma get_block_base_only_shares_witness :
  get_block Int32 true Int32 true store1 reader_two_blocks 4 1 empty_holder =
  Done (store1, {| _cb := Some 1%nat; _own := false |}, OK).
Proof.
  apply get_block_base_only_shares.
  - lia.
  - repeat constructor.
  - reflexivity.
Defined.

Lemma release_frame (h : gmap nat ColumnBlock) (cbh : ColumnBlockHolder)
    (base : list nat) (b : nat) :
  (forall l, _own cbh = true -> _cb cbh = Some l -> l ∉ base) ->
  b ∈ base -> (release h cbh).1 !! b = h !! b.
Proof.
  intros Hown Hb. unfold release.
  destruct (_cb cbh) as [lo|] eqn:Hcb; [|done].
  destruct (_own cbh) eqn:Ho; [|done]. simpl.
  apply lookup_delete_ne. intros ->. by eapply Hown.
Qed.

(** The block [get_block] writes to is owned by the holder and is never a
    base block. *)
Lemma holder_target_frame (T : ctype) (mem_ok : bool) (h h1 : gmap nat ColumnBlock)
    (cbh cbh' : ColumnBlockHolder) (nrows : nat) (base : list nat)
    (fresh_needed : bool) (l : nat) :
  Forall (fun l => is_Some (h !! l)) base ->
  (forall l, _own cbh = true -> _cb cbh = Some l -> l ∉ base) ->
  need_new h cbh nrows = Done fresh_needed ->
  (h1, cbh') = (if fresh_needed then fresh_block T mem_ok h cbh nrows
                else (h, cbh)) ->
  _cb cbh' = Some l ->
  _own cbh' = true /\ (l ∉ base) /\ (forall b, b ∈ base -> h1 !! b = h !! b).
Proof.
  intros Hbase Hown Hneed Hpair Hl. rewrite Forall_forall in Hbase.
  destruct fresh_needed.
  - unfold fresh_block in Hpair. injection Hpair as -> ->.
    simpl in Hl. injection Hl as <-.
    set (hr := (release h cbh).1).
    pose proof (is_fresh (dom hr)) as Hfresh.
    assert (forall b, b ∈ base -> b <> fresh (dom hr)) as Hne.
    { intros b Hb ->. apply Hfresh, elem_of_dom.
      unfold hr. rewrite (release_frame _ _ base) by done. by apply Hbase. }
    split; [done|]. split.
    + intros Hin. by apply (Hne _ Hin).
    + intros b Hb. rewrite lookup_insert_ne by (symmetry; by apply Hne).
      by apply (release_frame _ _ base).
  - injection Hpair as -> ->.
    assert (_own cbh = true) as Ho.
    { unfold need_new in Hneed.
      destruct (_own cbh); [done|]. simpl in Hneed. congruence. }
    split; [done|]. split; [|done]. by apply Hown.
Qed.

(** C10: [get_block] leaves the base layer as it was.  With the base
    blocks in the store and an owning holder owning a block of its own,
    every base block has the same data and null buffers after the call;
    when a delta touches the block, the block the patch is written to is
    the block the caller's holder owns, and it is no base block. *)
Theorem get_block_preserves_base (T : ctype) (Nullable : bool) (ST : ctype)
    (mem_ok : bool) (h : gmap nat ColumnBlock) (reader : Reader)
    (nrows : nat) (block : Z) (cbh : ColumnBlockHolder)
    (h' : gmap nat ColumnBlock) (cbh' : ColumnBlockHolder) (st : Status) :
  Forall (fun l => is_Some (h !! l)) (_base reader) ->
  (forall l, _own cbh = true -> _cb cbh = Some l -> l ∉ _base reader) ->
  get_block T Nullable ST mem_ok h reader nrows block cbh = Done (h', cbh', st) ->
  Forall (fun l => h' !! l = h !! l) (_base reader) /\
  (base_only_scan (_deltas reader) block = false ->
   exists l, _cb cbh' = Some l /\ _own cbh' = true /\ l ∉ _base reader).
Proof.
  intros Hbase Hown Hget.
  apply get_block_inv in Hget as (page & Hpage & [Hshare | Hpatch]).
  - destruct Hshare as (Hscan & -> & _). split; [|congruence].
    by apply Forall_forall.
  - destruct Hpatch as (_ & fresh_needed & h1 & l & cb & pg & cb0 & cb1 &
                        Hneed & Hpair & Hl & _ & _ & _ & _ & -> & _).
    destruct (holder_target_frame T mem_ok h h1 cbh cbh' nrows (_base reader)
                fresh_needed l Hbase Hown Hneed Hpair Hl)
      as (Howns & Hnot & Hframe).
    split.
    + apply Forall_forall. intros b Hb.
      rewrite lookup_insert_ne by (intros ->; done).
      by apply Hframe.
    + intros _. by exists l.
Qed.

Lemma get_block_preserves_base_witness :
  exists h' cbh' st,
    get_block Int32 true Int32 true store0 reader_v2 4 0 empty_holder =
      Done (h', cbh', st) /\
    held h' cbh' =
      Some {| _size := 4;
              _nulls := Some [0; 1; 0; 0];
              _data := Some (int32s [10; 25; 30; 99]) |} /\
    Forall (fun l => h' !! l = store0 !! l) (_base reader_v2) /\
    exists l, _cb cbh' = Some l /\ _own cbh' = true /\ l ∉ _base reader_v2.
Proof.
  destruct (get_block Int32 true Int32 true store0 reader_v2 4 0 empty_holder)
    as [[[h' cbh'] st]| |] eqn:Hget; [|vm_compute in Hget; discriminate..].
  exists h', cbh', st. split; [done|]. split.
  - vm_compute in Hget. injection Hget as <- <- <-. vm_compute. reflexivity.
  - destruct (get_block_preserves_base Int32 true Int32 true store0 reader_v2
                4 0 empty_holder h' cbh' st) as [Hframe Hown].
    + repeat constructor. vm_compute. eauto.
    + discriminate.
    + exact Hget.
    + split; [exact Hframe|]. apply Hown. reflexivity.
Defined.

Lemma base_only_scan_hit (ds1 ds2 : list ColumnDelta) (d : ColumnDelta) (block : Z) :
  contains_block d block = true ->
  base_only_scan (ds1 ++ d :: ds2) block = false.
Proof.
  intros Hd. induction ds1 as [|d1 ds1 IH]; simpl.
  - by rewrite Hd.
  - by destruct (contains_block d1 block).
Qed.

(** [get_block] applies the deltas oldest first, each writing the
    rows of its block range only, so the most recent delta that sets a
    row decides it.  With [_deltas = ds1 ++ d :: ds2], [d] containing
    [rid] and no delta of [ds2] containing it, whatever the deltas of
    [ds1] wrote to the row: on a nullable column the row's null flag in
    the materialized block is the null flag of [d]'s entry (for a delta
    that carries a null buffer), and unless that entry is flagged null
    the row's value is the value of [d]'s entry. *)
Theorem get_block_latest_delta_wins (T : ctype) (Nullable : bool) (ST : ctype)
    (mem_ok : bool) (h : gmap nat ColumnBlock) (reader : Reader) (nrows : nat)
    (cbh : ColumnBlockHolder) (h' : gmap nat ColumnBlock)
    (cbh' : ColumnBlockHolder) (st : Status)
    (rid : Z) (ds1 ds2 : list ColumnDelta) (d : ColumnDelta) :
  0 <= rid ->
  _deltas reader = ds1 ++ d :: ds2 ->
  Forall (fun d => DeltaIndex.wf (index d)) (d :: ds2) ->
  find_idx d rid <> DeltaIndex.npos ->
  Forall (fun d' => find_idx d' rid = DeltaIndex.npos) ds2 ->
  get_block T Nullable ST mem_ok h reader nrows (Z.shiftr rid 16) cbh =
    Done (h', cbh', st) ->
  exists cb,
    held h' cbh' = Some cb /\
    (Nullable = true -> is_Some (nulls d) ->
     is_null cb (Z.land rid 0xffff) = delta_is_null d (find_idx d rid)) /\
    (Nullable = false \/ delta_is_null d (find_idx d rid) = Done false ->
     exists v, delta_value ST d (find_idx d rid) = Some v /\
               data_at ST cb (Z.land rid 0xffff) = Some v).
Proof.
  intros Hrid Hds Hwf Hhit Hmiss Hget.
  apply get_block_inv in Hget as (page & Hpage & [Hshare | Hpatch]).
  { destruct Hshare as (Hscan & _). rewrite Hds in Hscan.
    rewrite base_only_scan_hit in Hscan; [done|].
    apply contains_block_hit; [|done]. by apply Forall_cons in Hwf as [? _]. }
  destruct Hpatch as (_ & fresh_needed & h1 & l & cb & pg & cb0 & cb1 &
                      _ & _ & Hl & _ & _ & _ & Hdeltas & -> & _).
  exists cb1. split.
  { unfold held. rewrite Hl. simpl. apply lookup_insert_eq. }
  rewrite Hds in Hdeltas.
  pose proof (patch_deltas_last_wins Nullable ST ds1 ds2 d rid cb0 cb1
                Hwf Hrid Hhit Hmiss Hdeltas) as Hw.
  unfold row_written in Hw. unfold delta_is_null.
  destruct Nullable.
  - destruct (nulls d) as [dn|].
    + destruct Hw as [[Hflag Hnull] | (Hflag & Hnull & Hcopy)];
        rewrite Hflag; simpl.
      * split; [done|]. by intros [?|?].
      * split; [done|]. by intros _.
    + destruct Hw as [_ Hcopy]. split; [by intros _ [? ?]|]. by intros _.
  - split; [done|]. by intros _.
Qed.

Lemma get_block_latest_delta_wins_witness :
  exists cb,
    materialized
      (get_block Int32 true Int32 true store0 reader_v2 4 0 empty_holder) =
      Done cb /\
    is_null cb 1 = Done true /\
    is_null cb 3 = Done false /\
    data_at Int32 cb 3 = Some (le_bytes 4 99).
Proof.
  destruct (get_block Int32 true Int32 true store0 reader_v2 4 0 empty_holder)
    as [[[h' cbh'] st]| |] eqn:Hget; [|vm_compute in Hget; discriminate..].
  destruct (get_block_latest_delta_wins Int32 true Int32 true store0 reader_v2
              4 empty_holder h' cbh' st 1 [deltaA] [] deltaB)
    as (cb & Hheld & Hnull & _).
  { lia. }
  { reflexivity. }
  { repeat constructor; vm_compute; congruence. }
  { vm_compute. discriminate. }
  { constructor. }
  { exact Hget. }
  exists cb. split.
  { unfold materialized. simpl. by rewrite Hheld. }
  split.
  { change (Z.land 1 65535) with 1 in Hnull.
    rewrite Hnull; [reflexivity|reflexivity|]. by eexists. }
  destruct (get_block_latest_delta_wins Int32 true Int32 true store0 reader_v2
              4 empty_holder h' cbh' st 3 [deltaA] [] deltaB)
    as (cb' & Hheld' & Hnull' & Hdata').
  { lia. }
  { reflexivity. }
  { repeat constructor; vm_compute; congruence. }
  { vm_compute. discriminate. }
  { constructor. }
  { exact Hget. }
  assert (cb' = cb) as -> by congruence.
  split.
  { change (Z.land 3 65535) with 3 in Hnull'.
    rewrite Hnull'; [reflexivity|reflexivity|]. by eexists. }
  change (Z.land 3 65535) with 3 in Hdata'.
  destruct Hdata' as (v & Hv & Hcb); [by right|].
  rewrite Hcb, <- Hv. reflexivity.
Defined.

(** ** Where the code departs from its description *)

(** C2: a delta without null buffer, applied to a nullable column.  At
    reader version 1 of the scenario, delta A (no null buffer) sets row 1
    to 25; the loop at typed_column_reader.h:161-165 copies the value
    and sets the null flag of the row, so the materialized row is null. *)
Example get_block_delta_without_nulls_sets_flag :
  nulls deltaA = None /\
  materialized
    (get_block Int32 true Int32 true store0 reader_v1 4 0 empty_holder) =
  Done {| _size := 4;
          _nulls := Some [0; 1; 0; 0];
          _data := Some (int32s [10; 25; 30; 40]) |}.
Proof. split; vm_compute; reflexivity. Qed.

(** C1: at the same input [get] and [get_block] disagree on row 1:
    [get(1)] is the address of the value 25 in delta A, not null, and
    the row 1 of the block of [get_block] is null. *)
Example get_and_get_block_disagree :
  get Int32 true Int32 store0 reader_v1 1 = Done (in_delta 0 0) /\
  deref Int32 store0 reader_v1 (in_delta 0 0) = Done (le_bytes 4 25) /\
  (let* cb := materialized
                (get_block Int32 true Int32 true store0 reader_v1 4 0
                   empty_holder) in
   block_row Int32 cb 1) = Done (true, le_bytes 4 25).
Proof. repeat split; vm_compute; reflexivity. Qed.

(** C4: two deltas at different versions set row 1 of a nullable column.
    Delta E (older) sets it to 50, not null; delta F (newer, without null
    buffer) sets it to 77.  The deltas are applied oldest first and the
    value of the row is that of delta F, but the loop at
    typed_column_reader.h:161-165 also sets the null flag, which neither
    delta asks for: the row of the materialized block is null, while
    [get(1)] is the address of the 77 in delta F. *)
Example get_block_newer_delta_without_nulls :
  delta_is_null deltaE 0 = Done false /\
  delta_is_null deltaF 0 = Done false /\
  delta_value Int32 deltaF 0 = Some (le_bytes 4 77) /\
  get Int32 true Int32 store0 reader_ef 1 = Done (in_delta 1 0) /\
  deref Int32 store0 reader_ef (in_delta 1 0) = Done (le_bytes 4 77) /\
  (let* cb := materialized
                (get_block Int32 true Int32 true store0 reader_ef 4 0
                   empty_holder) in
   block_row Int32 cb 1) = Done (true, le_bytes 4 77).
Proof. repeat split; vm_compute; reflexivity. Qed.

(** What the loop at typed_column_reader.h:161-165 does on every input:
    on a nullable column, a row whose most recent delta carries no null
    buffer is null in the materialized block. *)
Lemma delta_without_nulls_marks_row_null (T ST : ctype)
    (mem_ok : bool) (h : gmap nat ColumnBlock) (reader : Reader) (nrows : nat)
    (cbh : ColumnBlockHolder) (h' : gmap nat ColumnBlock)
    (cbh' : ColumnBlockHolder) (st : Status)
    (rid : Z) (ds1 ds2 : list ColumnDelta) (d : ColumnDelta) :
  0 <= rid ->
  _deltas reader = ds1 ++ d :: ds2 ->
  Forall (fun d => DeltaIndex.wf (index d)) (d :: ds2) ->
  find_idx d rid <> DeltaIndex.npos ->
  Forall (fun d' => find_idx d' rid = DeltaIndex.npos) ds2 ->
  nulls d = None ->
  get_block T true ST mem_ok h reader nrows (Z.shiftr rid 16) cbh =
    Done (h', cbh', st) ->
  exists cb,
    held h' cbh' = Some cb /\ is_null cb (Z.land rid 0xffff) = Done true.
Proof.
  intros Hrid Hds Hwf Hhit Hmiss Hnone Hget.
  apply get_block_inv in Hget as (page & Hpage & [Hshare | Hpatch]).
  { destruct Hshare as (Hscan & _). rewrite Hds in Hscan.
    rewrite base_only_scan_hit in Hscan; [done|].
    apply contains_block_hit; [|done]. by apply Forall_cons in Hwf as [? _]. }
  destruct Hpatch as (_ & fresh_needed & h1 & l & cb & pg & cb0 & cb1 &
                      _ & _ & Hl & _ & _ & _ & Hdeltas & -> & _).
  exists cb1. split.
  { unfold held. rewrite Hl. simpl. apply lookup_insert_eq. }
  rewrite Hds in Hdeltas.
  pose proof (patch_deltas_last_wins true ST ds1 ds2 d rid cb0 cb1
                Hwf Hrid Hhit Hmiss Hdeltas) as Hw.
  unfold row_written in Hw. rewrite Hnone in Hw. by destruct Hw.
Qed.

(** [get_block] returns no status but OK: the status of [alloc] is not
    among the values it returns. *)
Lemma get_block_status (T : ctype) (Nullable : bool) (ST : ctype)
    (mem_ok : bool) (h : gmap nat ColumnBlock) (reader : Reader)
    (nrows : nat) (block : Z) (cbh : ColumnBlockHolder)
    (h' : gmap nat ColumnBlock) (cbh' : ColumnBlockHolder) (st : Status) :
  get_block T Nullable ST mem_ok h reader nrows block cbh = Done (h', cbh', st) ->
  st = OK.
Proof.
  intros Hget.
  apply get_block_inv in Hget as (page & _ & [(_ & _ & _ & ->) | Hp]); [done|].
  by destruct Hp as (_ & ? & ? & ? & ? & ? & ? & ? &
                     _ & _ & _ & _ & _ & _ & _ & _ & ->).
Qed.

(** C6: [get_block] has to allocate a block and the allocator has no
    memory.  [alloc] reports the failure; [get_block] drops that status
    (typed_column_reader.h:135) and goes on to copy into the block that
    has no buffers. *)
Example get_block_drops_alloc_failure :
  (alloc false new_ColumnBlock 4 (sizeof Int32)).1 = MemoryAllocFailed /\
  need_new store0 empty_holder 4 = Done true /\
  get_block Int32 true Int32 false store0 reader_v1 4 0 empty_holder = Undefined.
Proof. repeat split; vm_compute; reflexivity. Qed.

(** C8: a non-nullable reader with logical type [int64] over [int32]
    storage.  [get(1)] points to the stored 20; [equals(1, &20, 0)]
    reads [as<T>()[1]], the eight bytes of rows 2 and 3, and answers
    false. *)
Example equals_reads_logical_type :
  get Int64 false Int32 store0 reader_v0 1 = Done (in_base 0 1) /\
  deref Int32 store0 reader_v0 (in_base 0 1) = Done (le_bytes 4 20) /\
  rhs_at Int64 (Some (le_bytes 8 20)) 0 = Done (le_bytes 8 20) /\
  le_value (le_bytes 4 20) = le_value (le_bytes 8 20) /\
  equals Int64 false Int32 store0 reader_v0 1 (Some (le_bytes 8 20)) 0 =
    Done false.
Proof. repeat split; vm_compute; reflexivity. Qed.

(** ** Where [get] and [get_block] agree *)

Lemma as_get_take_app (sz : nat) (src rest : list Z) (n i : nat) :
  (i * sz + sz <= n)%nat -> (n <= length src)%nat ->
  as_get sz (take n src ++ rest) i = as_get sz src i.
Proof.
  intros Hi Hn. unfold as_get.
  rewrite length_app, length_take, Nat.min_l by done.
  rewrite !decide_True by lia. f_equal.
  apply list_eq. intros j.
  destruct (decide (j < sz)%nat).
  - rewrite !lookup_take_lt by done. rewrite !lookup_drop.
    rewrite lookup_app_l by (rewrite length_take; lia).
    apply lookup_take_lt. lia.
  - by rewrite !lookup_take_ge by lia.
Qed.

(** The copy gives the first [nrows] rows of the page to the block. *)
Lemma copy_to_row (ST : ctype) (pg cb cb0 : ColumnBlock) (nrows : nat) (idx : Z) :
  copy_to pg cb nrows (sizeof ST) = Done (OK, cb0) ->
  0 <= idx < Z.of_nat nrows ->
  same_row ST idx pg cb0.
Proof.
  unfold copy_to, same_row, is_null, data_at. intros H Hidx. inv_done.
  rewrite Ha. case_decide as Hlen; [|done].
  assert (as_get (sizeof ST)
            (take (nrows * sizeof ST) a ++ drop (nrows * sizeof ST) a0)
            (Z.to_nat idx) = as_get (sizeof ST) a (Z.to_nat idx)) as Hdata.
  { apply as_get_take_app; [nia|lia]. }
  destruct (_nulls cb) as [dn|], (_nulls pg) as [sn|];
    repeat case_decide; try done; injection H as <-; simpl;
    (split; [|done]).
  - f_equal. unfold bool_get.
    rewrite lookup_app_l by (rewrite length_take; lia).
    by rewrite lookup_take_lt by lia.
  - unfold bool_get.
    rewrite lookup_app_l by (rewrite length_replicate; lia).
    by rewrite lookup_replicate_2 by lia.
  - done.
Qed.

(** Either no delta contains [rid], or there is a most recent one. *)
Lemma last_hit (ds : list ColumnDelta) (rid : Z) :
  Forall (fun d => find_idx d rid = DeltaIndex.npos) ds \/
  exists ds1 d ds2,
    ds = ds1 ++ d :: ds2 /\
    find_idx d rid <> DeltaIndex.npos /\
    Forall (fun d => find_idx d rid = DeltaIndex.npos) ds2.
Proof.
  induction ds as [|d ds IH].
  - left. constructor.
  - destruct IH as [Hmiss | (ds1 & d' & ds2 & -> & Hhit & Hmiss)].
    + destruct (decide (find_idx d rid = DeltaIndex.npos)) as [Hd|Hd].
      * left. by constructor.
      * right. by exists [], d, ds.
    + right. by exists (d :: ds1), d', ds2.
Qed.

Lemma deref_in_delta (ST : ctype) (h : gmap nat ColumnBlock) (reader : Reader)
    (ds1 ds2 : list ColumnDelta) (d : ColumnDelta) (pos : Z) :
  _deltas reader = ds1 ++ d :: ds2 ->
  deref ST h reader (in_delta (length ds1) pos) = defined (delta_value ST d pos).
Proof.
  intros Hds. unfold deref, delta_value. rewrite Hds.
  rewrite list_lookup_middle by done. simpl.
  by destruct (data d).
Qed.

Lemma get_miss_row (T : ctype) (Nullable : bool) (ST : ctype)
    (h : gmap nat ColumnBlock) (reader : Reader) (rid : Z) (p : pointer)
    (pg cb : ColumnBlock) :
  Forall (fun d => find_idx d rid = DeltaIndex.npos) (_deltas reader) ->
  base_block h reader (Z.shiftr rid 16) = Done pg ->
  same_row ST (Z.land rid 0xffff) pg cb ->
  get T Nullable ST h reader rid = Done p ->
  row_agrees Nullable ST h reader p cb (Z.land rid 0xffff).
Proof.
  intros Hmiss Hpg [Hnull Hdata]. unfold get, TypedColumnGet.
  rewrite get_scan_miss by done. rewrite Hpg. simpl.
  destruct Nullable.
  - intros H. inv_done. rewrite <- Hnull in Ha. destruct a.
    + injection H as <-. done.
    + injection H as <-. simpl. split; [done|].
      rewrite Hpg. simpl. rewrite Hdata. unfold data_at.
      by destruct (_data pg).
  - intros [= <-]. simpl. split; [done|].
    rewrite Hpg. simpl. rewrite Hdata. unfold data_at.
    by destruct (_data pg).
Qed.

Lemma get_hit_row (T : ctype) (Nullable : bool) (ST : ctype)
    (h : gmap nat ColumnBlock) (reader : Reader) (rid : Z) (p : pointer)
    (ds1 ds2 : list ColumnDelta) (d : ColumnDelta) (cb : ColumnBlock) :
  _deltas reader = ds1 ++ d :: ds2 ->
  find_idx d rid <> DeltaIndex.npos ->
  Forall (fun d => find_idx d rid = DeltaIndex.npos) ds2 ->
  (Nullable = true -> is_Some (nulls d)) ->
  row_written Nullable ST d (find_idx d rid) cb (Z.land rid 0xffff) ->
  get T Nullable ST h reader rid = Done p ->
  row_agrees Nullable ST h reader p cb (Z.land rid 0xffff).
Proof.
  intros Hds Hhit Hmiss Hbuf Hw. unfold get, TypedColumnGet. rewrite Hds.
  rewrite length_app. simpl.
  replace (length ds1 + S (length ds2))%nat
    with (S (length ds1 + length ds2)) by lia.
  rewrite (get_scan_hit Nullable ds1 ds2 d rid (length ds2)) by done.
  unfold row_written in Hw. unfold delta_is_null.
  destruct Nullable.
  - destruct (Hbuf eq_refl) as [dn Hdn]. rewrite Hdn in Hw |- *.
    destruct Hw as [[Hflag Hnull] | (Hflag & Hnull & v & Hv & Hcb)];
      rewrite Hflag; simpl; intros [= <-]; [done|].
    unfold row_agrees. split; [done|].
    rewrite (deref_in_delta ST h reader ds1 ds2 d) by done.
    by rewrite Hv, Hcb.
  - destruct Hw as (v & Hv & Hcb). intros [= <-].
    unfold row_agrees. split; [done|].
    rewrite (deref_in_delta ST h reader ds1 ds2 d) by done.
    by rewrite Hv, Hcb.
Qed.

(** On a non-nullable column, and on a nullable column whose deltas all
    carry a null buffer, the row [get] shows is the row of the block of
    [get_block]: with no delta, one delta or several deltas on the row. *)
Theorem get_matches_get_block (T : ctype) (Nullable : bool) (ST : ctype)
    (mem_ok : bool) (h : gmap nat ColumnBlock) (reader : Reader) (nrows : nat)
    (cbh : ColumnBlockHolder) (h' : gmap nat ColumnBlock)
    (cbh' : ColumnBlockHolder) (st : Status) (rid : Z) (p : pointer) :
  0 <= rid ->
  Z.land rid 0xffff < Z.of_nat nrows ->
  Forall (fun d => DeltaIndex.wf (index d)) (_deltas reader) ->
  (Nullable = true -> Forall (fun d => is_Some (nulls d)) (_deltas reader)) ->
  Forall (fun l => is_Some (h !! l)) (_base reader) ->
  (forall l, _own cbh = true -> _cb cbh = Some l -> l ∉ _base reader) ->
  get_block T Nullable ST mem_ok h reader nrows (Z.shiftr rid 16) cbh =
    Done (h', cbh', st) ->
  get T Nullable ST h reader rid = Done p ->
  exists cb,
    held h' cbh' = Some cb /\
    row_agrees Nullable ST h reader p cb (Z.land rid 0xffff).
Proof.
  intros Hrid Hidx Hwf Hbuf Hbase Hown Hblock Hget.
  apply get_block_inv in Hblock as (page & Hpage & Hcases).
  assert (page ∈ _base reader) as Hin by by eapply list_elem_of_lookup_2.
  destruct (proj1 (Forall_forall _ _) Hbase page Hin) as [pg0 Hpg0].
  assert (base_block h reader (Z.shiftr rid 16) = Done pg0) as Hbb.
  { unfold base_block. rewrite Hpage. simpl. by rewrite Hpg0. }
  destruct Hcases as [(Hscan & -> & -> & _) | Hpatch].
  - exists pg0. split; [done|].
    eapply get_miss_row; [|done|apply same_row_refl|done].
    apply base_only_scan_true in Hscan.
    rewrite Forall_forall in Hscan, Hwf. apply Forall_forall. intros d Hd.
    destruct (decide (find_idx d rid = DeltaIndex.npos)) as [|Hhit]; [done|].
    pose proof (contains_block_hit d rid (Hwf d Hd) Hhit) as Hc.
    rewrite (Hscan d Hd) in Hc. done.
  - destruct Hpatch as (_ & fresh_needed & h1 & l & cb & pg & cb0 & cb1 &
                        Hneed & Hpair & Hl & _ & Hpg & Hcopy & Hdeltas & -> & _).
    exists cb1. split.
    { unfold held. rewrite Hl. simpl. apply lookup_insert_eq. }
    destruct (holder_target_frame T mem_ok h h1 cbh cbh' nrows (_base reader)
                fresh_needed l Hbase Hown Hneed Hpair Hl) as (_ & _ & Hframe).
    rewrite (Hframe page Hin), Hpg0 in Hpg. injection Hpg as <-.
    pose proof (offset_nonneg rid) as Hoff.
    destruct (last_hit (_deltas reader) rid)
      as [Hmiss | (ds1 & d & ds2 & Hds & Hhit & Hmiss)].
    + eapply get_miss_row; [done|done| |done].
      eapply same_row_trans.
      * eapply copy_to_row; [done|lia].
      * by eapply patch_deltas_miss.
    + rewrite Hds in Hwf, Hdeltas.
      apply Forall_app in Hwf as [_ Hwf].
      eapply get_hit_row; [done|done|done| | |done].
      * intros HN. specialize (Hbuf HN). rewrite Hds in Hbuf.
        apply Forall_app in Hbuf as [_ Hbuf].
        by apply Forall_cons in Hbuf as [? _].
      * by eapply patch_deltas_last_wins.
Qed.

Lemma get_matches_get_block_witness :
  exists cb,
    materialized
      (get_block Int32 false Int32 true store0 reader_v2 4 0 empty_holder) =
      Done cb /\
    row_agrees false Int32 store0 reader_v2 (in_delta 1 1) cb 3.
Proof.
  destruct (get_block Int32 false Int32 true store0 reader_v2 4 0 empty_holder)
    as [[[h' cbh'] st]| |] eqn:Hget; [|vm_compute in Hget; discriminate..].
  destruct (get_matches_get_block Int32 false Int32 true store0 reader_v2 4
              empty_holder h' cbh' st 3 (in_delta 1 1)) as (cb & Hheld & Hrow).
  - lia.
  - reflexivity.
  - repeat constructor; vm_compute; congruence.
  - discriminate.
  - repeat constructor. vm_compute. eauto.
  - discriminate.
  - exact Hget.
  - reflexivity.
  - exists cb. split; [|exact Hrow].
    unfold materialized. simpl. by rewrite Hheld.
Defined.

(** ** What [get] can return *)

Lemma get_scan_none (Nullable : bool) (ds : list ColumnDelta) (rid : Z) (n : nat) :
  get_scan Nullable ds rid n = None ->
  forall j d, (j < n)%nat -> ds !! j = Some d -> find_idx d rid = DeltaIndex.npos.
Proof.
  induction n as [|n IH]; simpl; [lia|].
  destruct (ds !! n) as [dn|] eqn:Hn; [|done].
  case_decide as Hpos; [done|].
  intros Hscan j d Hj Hd.
  destruct (decide (j = n)) as [->|Hne].
  - assert (d = dn) as -> by congruence.
    destruct (decide (find_idx dn rid = DeltaIndex.npos)); [done|contradiction].
  - apply (IH Hscan j d); [lia|done].
Qed.

Lemma get_scan_some (Nullable : bool) (ds : list ColumnDelta) (rid : Z) (n : nat)
    (res : outcome pointer) :
  (n <= length ds)%nat ->
  get_scan Nullable ds rid n = Some res ->
  exists i d,
    (i < n)%nat /\ ds !! i = Some d /\
    find_idx d rid <> DeltaIndex.npos /\
    (forall j d', (i < j < n)%nat -> ds !! j = Some d' ->
                  find_idx d' rid = DeltaIndex.npos) /\
    res = (if Nullable
           then let* isnull := delta_is_null d (find_idx d rid) in
                if (isnull : bool) then Done nullptr
                else Done (in_delta i (find_idx d rid))
           else Done (in_delta i (find_idx d rid))).
Proof.
  induction n as [|n IH]; simpl; [done|]. intros Hn.
  destruct (lookup_lt_is_Some_2 ds n ltac:(lia)) as [dn Hdn]. rewrite Hdn.
  case_decide as Hpos.
  - intros [= <-]. exists n, dn. repeat split; try done; [lia|].
    intros j d' Hj. lia.
  - intros Hscan. destruct (IH ltac:(lia) Hscan)
      as (i & d & Hi & Hd & Hhit & Hlater & Hres).
    exists i, d. repeat split; try done; [lia|].
    intros j d' Hj Hd'. destruct (decide (j = n)) as [->|Hne].
    + assert (d' = dn) as -> by congruence.
      destruct (decide (find_idx dn rid = DeltaIndex.npos)); [done|contradiction].
    + apply (Hlater j d'); [lia|done].
Qed.

(** Whatever [get] returns is one of three things.  A null pointer, on a
    nullable column only.  The address of position [find_idx] in a delta
    of the reader that contains [rid], every more recent delta not
    containing it.  Or, no delta containing [rid], the address of offset
    [rid & 0xffff] in the base block [rid >> 16], which exists. *)
Theorem get_result (T : ctype) (Nullable : bool) (ST : ctype)
    (h : gmap nat ColumnBlock) (reader : Reader) (rid : Z) (p : pointer) :
  get T Nullable ST h reader rid = Done p ->
  match p with
  | nullptr => Nullable = true
  | in_delta i pos =>
      exists d, _deltas reader !! i = Some d /\
                pos = find_idx d rid /\ pos <> DeltaIndex.npos /\
                forall j d', (i < j)%nat -> _deltas reader !! j = Some d' ->
                             find_idx d' rid = DeltaIndex.npos
  | in_base bid idx =>
      bid = Z.shiftr rid 16 /\ idx = Z.land rid 0xffff /\
      (exists page, base_block h reader bid = Done page) /\
      Forall (fun d => find_idx d rid = DeltaIndex.npos) (_deltas reader)
  end.
Proof.
  unfold get, TypedColumnGet.
  destruct (get_scan Nullable (_deltas reader) rid (length (_deltas reader)))
    as [res|] eqn:Hscan.
  - apply get_scan_some in Hscan as (i & d & Hi & Hd & Hhit & Hlater & ->);
      [|done].
    assert (forall j d', (i < j)%nat -> _deltas reader !! j = Some d' ->
                         find_idx d' rid = DeltaIndex.npos) as Hall.
    { intros j d' Hj Hd'. apply (Hlater j d'); [|done].
      apply lookup_lt_Some in Hd'. lia. }
    destruct Nullable.
    + intros H. inv_done. destruct a; injection H as <-; [done|].
      by exists d.
    + intros [= <-]. by exists d.
  - intros H. inv_done.
    assert (Forall (fun d => find_idx d rid = DeltaIndex.npos) (_deltas reader))
      as Hmiss.
    { apply Forall_forall. intros d Hd.
      apply list_elem_of_lookup in Hd as [j Hj].
      apply (get_scan_none _ _ _ _ Hscan j d); [|done].
      by eapply lookup_lt_Some. }
    destruct Nullable.
    + inv_done. destruct a0; injection H as <-; [done|].
      repeat split; try done. by exists a.
    + injection H as <-. repeat split; try done. by exists a.
Qed.

Lemma get_result_witness :
  (exists d, _deltas reader_v2 !! 1%nat = Some d /\
             1 = find_idx d 3 /\ 1 <> DeltaIndex.npos /\
             forall j d', (1 < j)%nat -> _deltas reader_v2 !! j = Some d' ->
                          find_idx d' 3 = DeltaIndex.npos) /\
  (0 = Z.shiftr 2 16 /\ 2 = Z.land 2 0xffff /\
   (exists page, base_block store0 reader_v2 0 = Done page) /\
   Forall (fun d => find_idx d 2 = DeltaIndex.npos) (_deltas reader_v2)).
Proof.
  split.
  - apply (get_result Int32 true Int32 store0 reader_v2 3 (in_delta 1 1)).
    reflexivity.
  - apply (get_result Int32 true Int32 store0 reader_v2 2 (in_base 0 2)).
    reflexivity.
Defined.

(** ** A newer delta becomes visible *)

Lemma get_scan_app_l (Nullable : bool) (ds ds' : list ColumnDelta) (rid : Z)
    (n : nat) :
  (n <= length ds)%nat ->
  get_scan Nullable (ds ++ ds') rid n = get_scan Nullable ds rid n.
Proof.
  induction n as [|n IH]; intros Hn; simpl; [done|].
  rewrite lookup_app_l by lia. rewrite IH by lia. done.
Qed.

Lemma equals_scan_app_l (T : ctype) (Nullable : bool) (ds ds' : list ColumnDelta)
    (rid : Z) (rhs_value : outcome (list Z)) (n : nat) :
  (n <= length ds)%nat ->
  equals_scan T Nullable (ds ++ ds') rid rhs_value n =
  equals_scan T Nullable ds rid rhs_value n.
Proof.
  induction n as [|n IH]; intros Hn; simpl; [done|].
  rewrite lookup_app_l by lia. rewrite IH by lia. done.
Qed.

(** A newer delta that does not contain [rid] changes neither [get(rid)]
    nor [equals(rid, ...)]: the pointer returned, the outcome of the
    comparison and every failure are the same as before the delta. *)
Theorem newer_delta_without_row_invisible (T : ctype) (Nullable : bool)
    (ST : ctype) (h : gmap nat ColumnBlock) (reader : Reader)
    (d : ColumnDelta) (rid : Z) (rhs : option (list Z)) (rhs_idx : nat) :
  find_idx d rid = DeltaIndex.npos ->
  get T Nullable ST h (with_delta reader d) rid =
    get T Nullable ST h reader rid /\
  equals T Nullable ST h (with_delta reader d) rid rhs rhs_idx =
    equals T Nullable ST h reader rid rhs rhs_idx.
Proof.
  intros Hmiss.
  unfold get, equals, TypedColumnGet, TypedColumnEquals, with_delta, base_block.
  simpl. rewrite length_app. simpl.
  replace (length (_deltas reader) + 1)%nat with (S (length (_deltas reader)))
    by lia.
  simpl. rewrite list_lookup_middle by done.
  destruct (decide (find_idx d rid <> DeltaIndex.npos)) as [Hne|_]; [done|].
  rewrite get_scan_app_l, equals_scan_app_l by done. done.
Qed.

Lemma newer_delta_without_row_invisible_witness :
  get Int32 true Int32 store0 (with_delta reader_v2 deltaC) 3 =
    Done (in_delta 1 1) /\
  equals Int32 false Int32 store0 (with_delta reader_v2 deltaC) 3
    (Some (le_bytes 4 99)) 0 = Done true.
Proof.
  destruct (newer_delta_without_row_invisible Int32 true Int32 store0 reader_v2
              deltaC 3 None 0) as [Hget _]; [reflexivity|].
  destruct (newer_delta_without_row_invisible Int32 false Int32 store0 reader_v2
              deltaC 3 (Some (le_bytes 4 99)) 0) as [_ Heq]; [reflexivity|].
  split.
  - rewrite Hget. reflexivity.
  - rewrite Heq. reflexivity.
Defined.

Lemma base_only_scan_app (ds ds' : list ColumnDelta) (block : Z) :
  base_only_scan (ds ++ ds') block =
  base_only_scan ds block && base_only_scan ds' block.
Proof.
  induction ds as [|d ds IH]; simpl; [done|].
  by destruct (contains_block d block).
Qed.

Lemma patch_delta_other_block (Nullable : bool) (ST : ctype) (d : ColumnDelta)
    (block : Z) (cb : ColumnBlock) :
  contains_block d block = false ->
  patch_delta Nullable ST d block cb = Done cb.
Proof.
  unfold contains_block. rewrite patch_delta_eq. cbv zeta.
  destruct (DeltaIndex.block_range (index d) block) as [s e]. simpl.
  intros Hc. apply bool_decide_eq_false in Hc.
  case_decide; [done|].
  replace (Z.to_nat (e - s)) with 0%nat by lia. done.
Qed.

Lemma obind_Done_r {A : Type} (m : outcome A) : obind m Done = m.
Proof. by destruct m. Qed.

(** A newer delta that touches other blocks only changes nothing in
    [get_block] of this block: store, holder and status come out the
    same, and so does every failure. *)
Theorem get_block_ignores_delta_of_other_blocks (T : ctype) (Nullable : bool)
    (ST : ctype) (mem_ok : bool) (h : gmap nat ColumnBlock) (reader : Reader)
    (d : ColumnDelta) (nrows : nat) (block : Z) (cbh : ColumnBlockHolder) :
  contains_block d block = false ->
  get_block T Nullable ST mem_ok h (with_delta reader d) nrows block cbh =
  get_block T Nullable ST mem_ok h reader nrows block cbh.
Proof.
  intros Hd. unfold get_block, with_delta. simpl.
  rewrite base_only_scan_app. simpl. rewrite Hd, andb_true_r.
  destruct (defined (_base reader !! Z.to_nat block)) as [page| |]; simpl;
    [|done..].
  destruct (base_only_scan (_deltas reader) block); [done|].
  destruct (need_new h cbh nrows) as [fresh_needed| |]; simpl; [|done..].
  set (hc := if fresh_needed then fresh_block T mem_ok h cbh nrows else (h, cbh)).
  destruct (defined (_cb hc.2)) as [l| |]; simpl; [|done..].
  destruct (defined (hc.1 !! l)) as [cb| |]; simpl; [|done..].
  destruct (defined (hc.1 !! page)) as [pg| |]; simpl; [|done..].
  destruct (copy_to pg cb nrows (sizeof ST)) as [[st cb0]| |]; simpl; [|done..].
  destruct st; [|done].
  rewrite patch_deltas_app. simpl.
  destruct (patch_deltas Nullable ST (_deltas reader) block cb0) as [cb1| |];
    simpl; [|done..].
  rewrite patch_delta_other_block by done. done.
Qed.

Lemma get_block_ignores_delta_of_other_blocks_witness :
  materialized
    (get_block Int32 true Int32 true store0 (with_delta reader_v2 deltaD) 4 0
       empty_holder) =
  Done {| _size := 4;
          _nulls := Some [0; 1; 0; 0];
          _data := Some (int32s [10; 25; 30; 99]) |}.
Proof.
  rewrite (get_block_ignores_delta_of_other_blocks Int32 true Int32 true
             store0 reader_v2 deltaD 4 0 empty_holder).
  - reflexivity.
  - reflexivity.
Defined.

(** ** [equals] on a key column *)

Lemma equals_scan_miss (T : ctype) (Nullable : bool) (ds : list ColumnDelta)
    (rid : Z) (rhs_value : outcome (list Z)) (n : nat) :
  (n <= length ds)%nat ->
  Forall (fun d => find_idx d rid = DeltaIndex.npos) ds ->
  equals_scan T Nullable ds rid rhs_value n = None.
Proof.
  intros Hn Hmiss. induction n as [|n IH]; simpl; [done|].
  destruct (lookup_lt_is_Some_2 ds n ltac:(lia)) as [d Hd]. rewrite Hd.
  rewrite Forall_forall in Hmiss.
  rewrite decide_False; [apply IH; lia|].
  intros Hne. apply Hne, Hmiss. by eapply list_elem_of_lookup_2.
Qed.

Lemma equals_scan_hit (T : ctype) (Nullable : bool) (ds1 ds2 : list ColumnDelta)
    (d : ColumnDelta) (rid : Z) (rhs_value : outcome (list Z)) (k : nat) :
  find_idx d rid <> DeltaIndex.npos ->
  Forall (fun d => find_idx d rid = DeltaIndex.npos) ds2 ->
  (k <= length ds2)%nat ->
  equals_scan T Nullable (ds1 ++ d :: ds2) rid rhs_value (S (length ds1 + k)) =
  Some (if Nullable then Abort
        else elem_equals T (data d) (find_idx d rid) rhs_value).
Proof.
  intros Hhit Hmiss. induction k as [|k IH]; intros Hk.
  - rewrite Nat.add_0_r. simpl. rewrite list_lookup_middle by done.
    by rewrite decide_True.
  - destruct (lookup_lt_is_Some_2 ds2 k ltac:(lia)) as [d' Hd'].
    replace (S (length ds1 + S k)) with (S (S (length ds1 + k))) by lia.
    cbn [equals_scan].
    replace (S (length ds1 + k)) with (length ds1 + S k)%nat at 1 by lia.
    rewrite lookup_app_r by lia.
    replace (length ds1 + S k - length ds1)%nat with (S k) by lia.
    change ((d :: ds2) !! S k) with (ds2 !! k). rewrite Hd'.
    rewrite Forall_forall in Hmiss.
    rewrite decide_False.
    + apply IH. lia.
    + intros Hne. apply Hne, Hmiss. by eapply list_elem_of_lookup_2.
Qed.

Lemma elem_equals_no_abort (T : ctype) (buf : option (list Z)) (i : Z)
    (rhs : option (list Z)) (rhs_idx : nat) :
  elem_equals T buf i (rhs_at T rhs rhs_idx) <> Abort.
Proof.
  unfold elem_equals, rhs_at.
  destruct buf as [b|]; simpl; [|done].
  destruct (as_get (sizeof T) b (Z.to_nat i)); simpl; [|done].
  destruct rhs as [r|]; simpl; [|done].
  by destruct (as_get (sizeof T) r rhs_idx).
Qed.

Lemma equals_scan_no_abort (T : ctype) (ds : list ColumnDelta) (rid : Z)
    (rhs : option (list Z)) (rhs_idx : nat) (n : nat) :
  equals_scan T false ds rid (rhs_at T rhs rhs_idx) n <> Some Abort.
Proof.
  induction n as [|n IH]; simpl; [done|].
  destruct (ds !! n) as [d|]; [|done].
  case_decide; [|done].
  intros [= Habs]. by apply elem_equals_no_abort in Habs.
Qed.

(** On a non-nullable column [equals] never reaches a [CHECK(false)].
    It compares the external value with the element that the most recent
    delta containing [rid] holds at its position for [rid], read at the
    logical type [T]; with no delta containing [rid], with the element
    at offset [rid & 0xffff] of the base block [rid >> 16]. *)
Theorem equals_resolution (T ST : ctype) (h : gmap nat ColumnBlock)
    (reader : Reader) (rid : Z) (rhs : option (list Z)) (rhs_idx : nat) :
  equals T false ST h reader rid rhs rhs_idx <> Abort /\
  (forall ds1 d ds2 b lhs v,
     _deltas reader = ds1 ++ d :: ds2 ->
     find_idx d rid <> DeltaIndex.npos ->
     Forall (fun d' => find_idx d' rid = DeltaIndex.npos) ds2 ->
     data d = Some b ->
     as_get (sizeof T) b (Z.to_nat (find_idx d rid)) = Some lhs ->
     rhs_at T rhs rhs_idx = Done v ->
     equals T false ST h reader rid rhs rhs_idx = Done (typed_eq T lhs v)) /\
  (forall page b lhs v,
     Forall (fun d => find_idx d rid = DeltaIndex.npos) (_deltas reader) ->
     base_block h reader (Z.shiftr rid 16) = Done page ->
     _data page = Some b ->
     as_get (sizeof T) b (Z.to_nat (Z.land rid 0xffff)) = Some lhs ->
     rhs_at T rhs rhs_idx = Done v ->
     equals T false ST h reader rid rhs rhs_idx = Done (typed_eq T lhs v)).
Proof.
  unfold equals, TypedColumnEquals. split; [|split].
  - pose proof (equals_scan_no_abort T (_deltas reader) rid rhs rhs_idx
                  (length (_deltas reader))) as Hscan.
    destruct (equals_scan _ _ _ _ _ _) as [res|]; [congruence|].
    unfold base_block.
    destruct (_base reader !! Z.to_nat (Z.shiftr rid 16)) as [l|]; simpl;
      [|done].
    destruct (h !! l) as [page|]; simpl; [|done].
    apply elem_equals_no_abort.
  - intros ds1 d ds2 b lhs v Hds Hhit Hmiss Hb Hlhs Hv. rewrite Hds.
    rewrite length_app. simpl.
    replace (length ds1 + S (length ds2))%nat
      with (S (length ds1 + length ds2)) by lia.
    rewrite (equals_scan_hit T false ds1 ds2 d rid _ (length ds2)) by done.
    unfold elem_equals. rewrite Hb. simpl. rewrite Hlhs. simpl.
    by rewrite Hv.
  - intros page b lhs v Hmiss Hpage Hb Hlhs Hv.
    rewrite equals_scan_miss by done. rewrite Hpage. simpl.
    unfold elem_equals. rewrite Hb. simpl. rewrite Hlhs. simpl.
    by rewrite Hv.
Qed.

Lemma equals_resolution_witness :
  equals Int32 false Int32 store0 reader_v2 3 (Some (le_bytes 4 99)) 0 =
    Done true /\
  equals Int32 false Int32 store0 reader_v2 2 (Some (le_bytes 4 31)) 0 =
    Done false.
Proof.
  split.
  - apply (proj1 (proj2 (equals_resolution Int32 Int32 store0 reader_v2 3
                           (Some (le_bytes 4 99)) 0))
             [deltaA] deltaB [] (int32s [0; 99]) (le_bytes 4 99) (le_bytes 4 99)).
    + reflexivity.
    + vm_compute. discriminate.
    + constructor.
    + reflexivity.
    + reflexivity.
    + reflexivity.
  - apply (proj2 (proj2 (equals_resolution Int32 Int32 store0 reader_v2 2
                           (Some (le_bytes 4 31)) 0))
             base0 (int32s [10; 20; 30; 40]) (le_bytes 4 30) (le_bytes 4 31)).
    + repeat constructor.
    + reflexivity.
    + reflexivity.
    + reflexivity.
    + reflexivity.
Defined.

Lemma equals_same_type_value (T : ctype) (h : gmap nat ColumnBlock)
    (reader : Reader) (rid : Z) (rhs : option (list Z)) (rhs_idx : nat)
    (p : pointer) (lhs : list Z) :
  get T false T h reader rid = Done p ->
  deref T h reader p = Done lhs ->
  equals T false T h reader rid rhs rhs_idx =
  let* v := rhs_at T rhs rhs_idx in Done (typed_eq T lhs v).
Proof.
  unfold equals, get, TypedColumnEquals, TypedColumnGet.
  pose proof (equals_scan_get_scan T h reader rid (rhs_at T rhs rhs_idx)
                (length (_deltas reader))) as Hscan.
  destruct (get_scan _ _ _ _) as [g|], (equals_scan _ _ _ _ _ _) as [e|];
    try done.
  - intros -> Hderef. rewrite Hscan. simpl. by rewrite Hderef.
  - intros Hget Hderef. inv_done. subst p.
    rewrite Ha. simpl.
    unfold deref in Hderef. rewrite Ha in Hderef. simpl in Hderef.
    unfold elem_equals. destruct (_data a) as [b|]; simpl in *; [|done].
    by rewrite Hderef.
Qed.

Lemma deref_length (ST : ctype) (h : gmap nat ColumnBlock) (reader : Reader)
    (p : pointer) (v : list Z) :
  deref ST h reader p = Done v -> length v = sizeof ST.
Proof.
  destruct p; simpl; [done| |]; intros H; inv_done; by eapply as_get_length.
Qed.

Lemma as_get_whole (sz : nat) (v : list Z) :
  length v = sz -> as_get sz v 0 = Some v.
Proof.
  intros Hv. unfold as_get. rewrite decide_True by lia.
  rewrite Nat.mul_0_l, drop_0. by rewrite take_ge by lia.
Qed.

(** Keys that [equals] accepts hash alike.  On a non-nullable column of
    an integer type stored at its own type, when [equals(rid, rhs,
    rhs_idx)] is true, [hashcode(rhs, rhs_idx)] is the hash code of the
    stored value that [get(rid)] points to. *)
Theorem equal_keys_hash_equal (T : ctype) (h : gmap nat ColumnBlock)
    (reader : Reader) (rid : Z) (rhs : option (list Z)) (rhs_idx : nat)
    (p : pointer) (stored : list Z) :
  is_integer T = true ->
  get T false T h reader rid = Done p ->
  deref T h reader p = Done stored ->
  equals T false T h reader rid rhs rhs_idx = Done true ->
  hashcode T T rhs rhs_idx = hashcode T T (Some stored) 0 /\
  hashcode T T rhs rhs_idx = Done (HashUtil.fnv_hash64 stored 0).
Proof.
  intros Hint Hget Hderef Heq.
  rewrite (equals_same_type_value T h reader rid rhs rhs_idx p stored Hget Hderef)
    in Heq.
  inv_done.
  assert (stored = a) as <-.
  { destruct T; simpl in Hint, Heq; try done;
      by apply bool_decide_eq_true in Heq. }
  unfold hashcode, TypedColumnHashcode, is_same.
  rewrite bool_decide_eq_true_2 by done. rewrite Ha. simpl.
  unfold rhs_at. simpl.
  rewrite as_get_whole by by eapply deref_length. done.
Qed.

Lemma equal_keys_hash_equal_witness :
  hashcode Int32 Int32 (Some (int32s [5; 99])) 1 =
    hashcode Int32 Int32 (Some (le_bytes 4 99)) 0 /\
  hashcode Int32 Int32 (Some (int32s [5; 99])) 1 =
    Done (HashUtil.fnv_hash64 (le_bytes 4 99) 0).
Proof.
  apply (equal_keys_hash_equal Int32 store0 reader_v2 3
           (Some (int32s [5; 99])) 1 (in_delta 1 1) (le_bytes 4 99)).
  - reflexivity.
  - reflexivity.
  - reflexivity.
  - reflexivity.
Defined.

(** ** The block [get_block] patches *)

Lemma write_null_sizes (cb cb' : ColumnBlock) (pos : Z) (v : bool) :
  write_null cb pos v = Done cb' -> buffer_sizes cb' = buffer_sizes cb.
Proof.
  unfold write_null, buffer_sizes. intros H. inv_done. subst cb'. simpl.
  rewrite Ha. simpl. revert Ha0. unfold bool_set. case_decide; [|done].
  intros [= <-]. by rewrite length_insert.
Qed.

Lemma write_data_sizes (ST : ctype) (cb cb' : ColumnBlock) (pos i : Z)
    (dd : option (list Z)) :
  write_data ST cb pos dd i = Done cb' -> buffer_sizes cb' = buffer_sizes cb.
Proof.
  unfold write_data, buffer_sizes. intros H. inv_done. subst cb'. simpl.
  rewrite Ha1. simpl. do 2 f_equal.
  eapply as_set_length; [|done]. by eapply as_get_length.
Qed.

Lemma delta_body_sizes (Nullable : bool) (ST : ctype) (delta : ColumnDelta)
    (i : Z) (cb cb' : ColumnBlock) :
  delta_body Nullable ST delta i cb = Done cb' ->
  buffer_sizes cb' = buffer_sizes cb.
Proof.
  unfold delta_body.
  destruct Nullable; [destruct (nulls delta) as [dn|]|].
  - unfold row_with_nulls. intros H. inv_done. destruct a0.
    + by eapply write_null_sizes.
    + inv_done. apply write_null_sizes in Ha1. apply write_data_sizes in H.
      congruence.
  - unfold row_without_nulls. intros H. inv_done.
    apply write_null_sizes in Ha0. apply write_data_sizes in H. congruence.
  - unfold row_plain. intros H. inv_done. by eapply write_data_sizes.
Qed.

Lemma patch_rows_sizes (Nullable : bool) (ST : ctype) (delta : ColumnDelta)
    (n : nat) (s : Z) (cb cb' : ColumnBlock) :
  patch_rows (delta_body Nullable ST delta) n s cb = Done cb' ->
  buffer_sizes cb' = buffer_sizes cb.
Proof.
  revert s cb. induction n as [|n IH]; intros s cb; simpl.
  - by intros [= ->].
  - intros H. inv_done. apply delta_body_sizes in Ha. apply IH in H. congruence.
Qed.

Lemma patch_delta_sizes (Nullable : bool) (ST : ctype) (delta : ColumnDelta)
    (block : Z) (cb cb' : ColumnBlock) :
  patch_delta Nullable ST delta block cb = Done cb' ->
  buffer_sizes cb' = buffer_sizes cb.
Proof.
  rewrite patch_delta_eq. cbv zeta. case_decide.
  - by intros [= ->].
  - apply patch_rows_sizes.
Qed.

Lemma patch_deltas_sizes (Nullable : bool) (ST : ctype) (ds : list ColumnDelta)
    (block : Z) (cb cb' : ColumnBlock) :
  patch_deltas Nullable ST ds block cb = Done cb' ->
  buffer_sizes cb' = buffer_sizes cb.
Proof.
  revert cb. induction ds as [|d ds IH]; intros cb; simpl.
  - by intros [= ->].
  - intros H. inv_done. apply patch_delta_sizes in Ha. apply IH in H. congruence.
Qed.

Lemma copy_to_sizes (pg cb cb0 : ColumnBlock) (nrows esize : nat) :
  copy_to pg cb nrows esize = Done (OK, cb0) ->
  buffer_sizes cb0 = buffer_sizes cb.
Proof.
  unfold copy_to, buffer_sizes. intros H. inv_done.
  case_decide as Hlen; [|done]. rewrite Ha0.
  destruct (_nulls cb) as [dn|], (_nulls pg) as [sn|];
    repeat case_decide; try done; injection H as <-; simpl;
    rewrite ?length_app, ?length_take, ?length_drop, ?length_replicate;
    repeat f_equal; lia.
Qed.

Lemma base_only_scan_false (ds : list ColumnDelta) (block : Z) :
  base_only_scan ds block = false <->
  Exists (fun d => contains_block d block = true) ds.
Proof.
  induction ds as [|d ds IH]; simpl.
  - split; [done|]. by intros ?%Exists_nil.
  - rewrite Exists_cons. destruct (contains_block d block) eqn:Hd.
    + split; [by left|done].
    + rewrite IH. split; [by right|]. by intros [?|?].
Qed.

Lemma patched_holder_owns (T : ctype) (mem_ok : bool) (h h1 : gmap nat ColumnBlock)
    (cbh cbh' : ColumnBlockHolder) (nrows : nat) (fresh_needed : bool) :
  need_new h cbh nrows = Done fresh_needed ->
  (h1, cbh') = (if fresh_needed then fresh_block T mem_ok h cbh nrows
                else (h, cbh)) ->
  _own cbh' = true.
Proof.
  intros Hneed Hpair. destruct fresh_needed.
  - unfold fresh_block in Hpair. by injection Hpair as -> ->.
  - injection Hpair as -> ->. unfold need_new in Hneed.
    destruct (_own cbh); [done|]. simpl in Hneed. congruence.
Qed.

(** The holder that comes back tells what happened: it owns its block
    exactly when some delta of the reader contains the requested block,
    and refers to the shared base block otherwise. *)
Theorem get_block_owns_iff_patched (T : ctype) (Nullable : bool) (ST : ctype)
    (mem_ok : bool) (h : gmap nat ColumnBlock) (reader : Reader)
    (nrows : nat) (block : Z) (cbh : ColumnBlockHolder)
    (h' : gmap nat ColumnBlock) (cbh' : ColumnBlockHolder) (st : Status) :
  get_block T Nullable ST mem_ok h reader nrows block cbh = Done (h', cbh', st) ->
  (_own cbh' = true <->
   Exists (fun d => contains_block d block = true) (_deltas reader)) /\
  (_own cbh' = false -> _cb cbh' = _base reader !! Z.to_nat block).
Proof.
  intros Hget. rewrite <- base_only_scan_false.
  apply get_block_inv in Hget as (page & Hpage & [Hshare | Hpatch]).
  - destruct Hshare as (Hscan & _ & -> & _). rewrite Hscan. simpl.
    split; [done|]. by intros _.
  - destruct Hpatch as (Hscan & fresh_needed & h1 & l & cb & pg & cb0 & cb1 &
                        Hneed & Hpair & _).
    rewrite (patched_holder_owns T mem_ok h h1 cbh cbh' nrows fresh_needed)
      by done.
    split; [done|]. done.
Qed.

Lemma get_block_owns_iff_patched_witness :
  Exists (fun d => contains_block d 0 = true) (_deltas reader_v2).
Proof.
  destruct (get_block Int32 true Int32 true store0 reader_v2 4 0 empty_holder)
    as [[[h' cbh'] st]| |] eqn:Hget; [|vm_compute in Hget; discriminate..].
  apply (get_block_owns_iff_patched Int32 true Int32 true store0 reader_v2 4 0
           empty_holder h' cbh' st Hget).
  vm_compute in Hget. by injection Hget as <- <- <-.
Defined.

(** A holder that owns a block of at least [nrows] rows is reused: the
    holder is unchanged, the patched block is written in place with its
    capacity and buffer sizes as they were, and no other block of the
    store is touched, allocated or released. *)
Theorem get_block_reuses_owned_block (T : ctype) (Nullable : bool) (ST : ctype)
    (mem_ok : bool) (h : gmap nat ColumnBlock) (reader : Reader)
    (nrows : nat) (block : Z) (cbh : ColumnBlockHolder)
    (h' : gmap nat ColumnBlock) (cbh' : ColumnBlockHolder) (st : Status)
    (l : nat) (cb : ColumnBlock) :
  _own cbh = true ->
  _cb cbh = Some l ->
  h !! l = Some cb ->
  (nrows <= _size cb)%nat ->
  Exists (fun d => contains_block d block = true) (_deltas reader) ->
  get_block T Nullable ST mem_ok h reader nrows block cbh = Done (h', cbh', st) ->
  cbh' = cbh /\
  (exists cb', h' !! l = Some cb' /\ buffer_sizes cb' = buffer_sizes cb) /\
  (forall l', l' <> l -> h' !! l' = h !! l').
Proof.
  intros Hown Hcb Hl Hsize Htouch Hget.
  apply base_only_scan_false in Htouch.
  apply get_block_inv in Hget as (page & Hpage & [Hshare | Hpatch]).
  { destruct Hshare as (Hscan & _). congruence. }
  destruct Hpatch as (_ & fresh_needed & h1 & l0 & cb_ & pg & cb0 & cb1 &
                      Hneed & Hpair & Hl0 & Hcb_ & _ & Hcopy & Hdeltas & -> & _).
  assert (fresh_needed = false) as ->.
  { revert Hneed. unfold need_new, held. rewrite Hown, Hcb. simpl.
    rewrite Hl. simpl. rewrite bool_decide_eq_false_2 by lia. congruence. }
  injection Hpair as -> ->.
  assert (l0 = l) as -> by congruence.
  assert (cb_ = cb) as -> by congruence.
  split; [done|]. split.
  - exists cb1. split; [apply lookup_insert_eq|].
    apply copy_to_sizes in Hcopy. apply patch_deltas_sizes in Hdeltas.
    congruence.
  - intros l' Hne. by apply lookup_insert_ne.
Qed.

Lemma get_block_reuses_owned_block_witness :
  exists h',
    get_block Int32 true Int32 false store_owned reader_v2 4 0 owning_holder =
      Done (h', owning_holder, OK) /\
    h' !! 5%nat = Some {| _size := 4;
                          _nulls := Some [0; 1; 0; 0];
                          _data := Some (int32s [10; 25; 30; 99]) |} /\
    h' !! 0%nat = Some base0.
Proof.
  destruct (get_block Int32 true Int32 false store_owned reader_v2 4 0
              owning_holder) as [[[h' cbh'] st]| |] eqn:Hget;
    [|vm_compute in Hget; discriminate..].
  destruct (get_block_reuses_owned_block Int32 true Int32 false store_owned
              reader_v2 4 0 owning_holder h' cbh' st 5%nat stale_block)
    as (Hcbh & _ & Hframe).
  - reflexivity.
  - reflexivity.
  - reflexivity.
  - simpl. lia.
  - apply Exists_cons_hd. reflexivity.
  - exact Hget.
  - exists h'. rewrite (Hframe 0%nat) by lia. rewrite Hcbh.
    vm_compute in Hget. inversion Hget. subst. repeat split.
Defined.

(** A holder that owns nothing suitable (it is non-owning, or its block
    has fewer than [nrows] rows) is given a block the store did not hold:
    what it held is released, the new block is allocated for [nrows]
    elements of [sizeof(T)] bytes with a null bitmap of [nrows] flags,
    and the holder owns it.  Every other block is as it was. *)
Theorem get_block_allocates_fresh_block (T : ctype) (Nullable : bool)
    (ST : ctype) (mem_ok : bool) (h : gmap nat ColumnBlock) (reader : Reader)
    (nrows : nat) (block : Z) (cbh : ColumnBlockHolder)
    (h' : gmap nat ColumnBlock) (cbh' : ColumnBlockHolder) (st : Status) :
  (_own cbh = false \/
   exists cb, held h cbh = Some cb /\ (_size cb < nrows)%nat) ->
  Exists (fun d => contains_block d block = true) (_deltas reader) ->
  get_block T Nullable ST mem_ok h reader nrows block cbh = Done (h', cbh', st) ->
  exists l cb',
    cbh' = {| _cb := Some l; _own := true |} /\
    (release h cbh).1 !! l = None /\
    h' !! l = Some cb' /\
    buffer_sizes cb' = (nrows, Some nrows, Some (nrows * sizeof T)%nat) /\
    (forall l', l' <> l -> h' !! l' = (release h cbh).1 !! l').
Proof.
  intros Hneeds Htouch Hget.
  apply base_only_scan_false in Htouch.
  apply get_block_inv in Hget as (page & Hpage & [Hshare | Hpatch]).
  { destruct Hshare as (Hscan & _). congruence. }
  destruct Hpatch as (_ & fresh_needed & h1 & l0 & cb_ & pg & cb0 & cb1 &
                      Hneed & Hpair & Hl0 & Hcb_ & _ & Hcopy & Hdeltas & -> & _).
  assert (fresh_needed = true) as ->.
  { revert Hneed. unfold need_new.
    destruct Hneeds as [-> | (cb & Hheld & Hsize)]; simpl; [congruence|].
    destruct (_own cbh); simpl; [|congruence].
    rewrite Hheld. simpl. rewrite bool_decide_eq_true_2 by done. congruence. }
  unfold fresh_block in Hpair. injection Hpair as -> ->.
  simpl in Hl0. injection Hl0 as <-.
  set (hr := (release h cbh).1) in *.
  rewrite lookup_insert_eq in Hcb_. injection Hcb_ as <-.
  exists (fresh (dom hr)), cb1. split; [done|]. split.
  { apply not_elem_of_dom, is_fresh. }
  split; [apply lookup_insert_eq|]. split.
  - apply copy_to_sizes in Hcopy as Hs0. apply patch_deltas_sizes in Hdeltas.
    rewrite Hdeltas, Hs0. destruct mem_ok; simpl.
    + unfold buffer_sizes. simpl. by rewrite !length_replicate.
    + unfold copy_to in Hcopy. simpl in Hcopy.
      destruct (defined (_data pg)); done.
  - intros l' Hne. rewrite !lookup_insert_ne by done. done.
Qed.

Lemma get_block_allocates_fresh_block_witness :
  exists h' l cb',
    get_block Int32 true Int32 true store0 reader_v2 4 0 empty_holder =
      Done (h', {| _cb := Some l; _own := true |}, OK) /\
    store0 !! l = None /\
    h' !! l = Some cb' /\
    h' !! 0%nat = Some base0 /\
    buffer_sizes cb' = (4%nat, Some 4%nat, Some 16%nat).
Proof.
  destruct (get_block Int32 true Int32 true store0 reader_v2 4 0 empty_holder)
    as [[[h' cbh'] st]| |] eqn:Hget; [|vm_compute in Hget; discriminate..].
  destruct (get_block_allocates_fresh_block Int32 true Int32 true store0
              reader_v2 4 0 empty_holder h' cbh' st)
    as (l & cb' & Hcbh & Hnew & Hl & Hsizes & Hframe).
  - by left.
  - apply Exists_cons_hd. reflexivity.
  - exact Hget.
  - exists h', l, cb'. rewrite Hcbh.
    assert (l <> 0%nat) as Hne by (intros ->; done).
    rewrite (Hframe 0%nat) by done.
    assert (st = OK) as -> by (vm_compute in Hget; congruence).
    repeat split; done.
Defined.

Lemma sizeof_pos (t : ctype) : (0 < sizeof t)%nat.
Proof. destruct t; simpl; lia. Qed.

Lemma row_written_in_range (Nullable : bool) (ST : ctype) (d : ColumnDelta)
    (i idx : Z) (cb : ColumnBlock) (s n m : nat) :
  row_written Nullable ST d i cb idx ->
  buffer_sizes cb = (s, Some n, Some m) ->
  (Z.to_nat idx < n)%nat \/
  (Z.to_nat idx * sizeof ST + sizeof ST <= m)%nat.
Proof.
  unfold row_written, buffer_sizes. intros Hw [= _ Hn Hm].
  destruct (_nulls cb) as [bn|] eqn:Hbn; [|done].
  destruct (_data cb) as [bd|] eqn:Hbd; [|done].
  simpl in Hn, Hm. injection Hn as <-. injection Hm as <-.
  assert ((exists v, delta_value ST d i = Some v /\ data_at ST cb idx = Some v) ->
          (Z.to_nat idx * sizeof ST + sizeof ST <= length bd)%nat) as Hcopied.
  { intros (v & _ & Hv). unfold data_at in Hv. rewrite Hbd in Hv. simpl in Hv.
    unfold as_get in Hv. by case_decide. }
  destruct Nullable; [destruct (nulls d)|]; [| |by right; apply Hcopied].
  - destruct Hw as [[_ Hnull] | (_ & _ & Hc)]; [|by right; apply Hcopied].
    left. unfold is_null in Hnull. rewrite Hbn in Hnull.
    unfold bool_get in Hnull.
    destruct (bn !! Z.to_nat idx) eqn:Hlk; [|done].
    by eapply lookup_lt_Some.
  - destruct Hw as [_ Hc]. by right; apply Hcopied.
Qed.

(** A fresh block has room for [nrows] rows, and the patch writes every
    row that a delta sets in the block.  So with a holder that owns
    nothing, the storage type being at least as wide as the logical one,
    [get_block] returns only if each row a delta contains in the block
    lies below [nrows]; a delta row at or beyond [nrows] is a write
    outside the block. *)
Theorem get_block_delta_rows_below_nrows (T : ctype) (Nullable : bool)
    (ST : ctype) (mem_ok : bool) (h : gmap nat ColumnBlock) (reader : Reader)
    (nrows : nat) (cbh : ColumnBlockHolder)
    (h' : gmap nat ColumnBlock) (cbh' : ColumnBlockHolder) (st : Status)
    (rid : Z) (ds1 ds2 : list ColumnDelta) (d : ColumnDelta) :
  _own cbh = false ->
  (sizeof T <= sizeof ST)%nat ->
  0 <= rid ->
  _deltas reader = ds1 ++ d :: ds2 ->
  DeltaIndex.wf (index d) ->
  find_idx d rid <> DeltaIndex.npos ->
  get_block T Nullable ST mem_ok h reader nrows (Z.shiftr rid 16) cbh =
    Done (h', cbh', st) ->
  Z.land rid 0xffff < Z.of_nat nrows.
Proof.
  intros Hown Hsz Hrid Hds Hwf Hhit Hget.
  apply get_block_inv in Hget as (page & Hpage & [Hshare | Hpatch]).
  { destruct Hshare as (Hscan & _). rewrite Hds in Hscan.
    rewrite base_only_scan_hit in Hscan; [done|].
    by apply contains_block_hit. }
  destruct Hpatch as (_ & fresh_needed & h1 & l0 & cb_ & pg & cb0 & cb1 &
                      Hneed & Hpair & Hl0 & Hcb_ & _ & Hcopy & Hdeltas & _).
  assert (fresh_needed = true) as ->.
  { revert Hneed. unfold need_new. rewrite Hown. simpl. congruence. }
  unfold fresh_block in Hpair. injection Hpair as -> ->.
  simpl in Hl0. injection Hl0 as <-.
  rewrite lookup_insert_eq in Hcb_. injection Hcb_ as <-.
  assert (buffer_sizes cb0 = (nrows, Some nrows, Some (nrows * sizeof T)%nat))
    as Hsizes.
  { rewrite (copy_to_sizes _ _ _ _ _ Hcopy). destruct mem_ok; simpl.
    - unfold buffer_sizes. simpl. by rewrite !length_replicate.
    - unfold copy_to in Hcopy. simpl in Hcopy.
      destruct (defined (_data pg)); done. }
  rewrite Hds, patch_deltas_app in Hdeltas. simpl in Hdeltas. inv_done.
  apply patch_deltas_sizes in Ha.
  pose proof (patch_delta_sizes _ _ _ _ _ _ Ha0) as Hsb.
  apply patch_delta_hit in Ha0; [|done..].
  pose proof (offset_nonneg rid) as Hoff.
  pose proof (sizeof_pos ST) as Hpos.
  destruct (row_written_in_range Nullable ST d (find_idx d rid)
              (Z.land rid 0xffff) a0 nrows nrows (nrows * sizeof T) Ha0)
    as [Hin | Hin]; [congruence|lia|nia].
Qed.

Lemma get_block_delta_rows_below_nrows_witness : Z.land 3 0xffff < 4.
Proof.
  destruct (get_block Int32 true Int32 true store0 reader_v2 4 0 empty_holder)
    as [[[h' cbh'] st]| |] eqn:Hget; [|vm_compute in Hget; discriminate..].
  apply (get_block_delta_rows_below_nrows Int32 true Int32 true store0
           reader_v2 4 empty_holder h' cbh' st 3 [deltaA] [] deltaB).
  - reflexivity.
  - simpl. lia.
  - lia.
  - reflexivity.
  - repeat constructor; vm_compute; congruence.
  - vm_compute. discriminate.
  - exact Hget.
Defined.

(** A row of the block that no delta contains comes out of [get_block]
    as the base block has it, null state and value, whether the base
    block is shared or copied and patched. *)
Theorem get_block_untouched_row (T : ctype) (Nullable : bool) (ST : ctype)
    (mem_ok : bool) (h : gmap nat ColumnBlock) (reader : Reader) (nrows : nat)
    (cbh : ColumnBlockHolder) (h' : gmap nat ColumnBlock)
    (cbh' : ColumnBlockHolder) (st : Status) (rid : Z) (pg : ColumnBlock) :
  0 <= rid ->
  Z.land rid 0xffff < Z.of_nat nrows ->
  Forall (fun d => DeltaIndex.wf (index d)) (_deltas reader) ->
  Forall (fun d => find_idx d rid = DeltaIndex.npos) (_deltas reader) ->
  Forall (fun l => is_Some (h !! l)) (_base reader) ->
  (forall l, _own cbh = true -> _cb cbh = Some l -> l ∉ _base reader) ->
  base_block h reader (Z.shiftr rid 16) = Done pg ->
  get_block T Nullable ST mem_ok h reader nrows (Z.shiftr rid 16) cbh =
    Done (h', cbh', st) ->
  exists cb,
    held h' cbh' = Some cb /\
    is_null cb (Z.land rid 0xffff) = is_null pg (Z.land rid 0xffff) /\
    data_at ST cb (Z.land rid 0xffff) = data_at ST pg (Z.land rid 0xffff).
Proof.
  intros Hrid Hidx Hwf Hmiss Hbase Hown Hpg Hget.
  apply get_block_inv in Hget as (page & Hpage & Hcases).
  assert (page ∈ _base reader) as Hin by by eapply list_elem_of_lookup_2.
  assert (h !! page = Some pg) as Hpg0.
  { revert Hpg. unfold base_block. rewrite Hpage. simpl.
    by destruct (h !! page); simpl; intros [= ->]. }
  destruct Hcases as [(_ & -> & -> & _) | Hpatch].
  - exists pg. by split.
  - destruct Hpatch as (_ & fresh_needed & h1 & l & cb & pg' & cb0 & cb1 &
                        Hneed & Hpair & Hl & _ & Hpg' & Hcopy & Hdeltas & -> & _).
    destruct (holder_target_frame T mem_ok h h1 cbh cbh' nrows (_base reader)
                fresh_needed l Hbase Hown Hneed Hpair Hl) as (_ & _ & Hframe).
    rewrite (Hframe page Hin), Hpg0 in Hpg'. injection Hpg' as <-.
    exists cb1. split.
    { unfold held. rewrite Hl. simpl. apply lookup_insert_eq. }
    pose proof (offset_nonneg rid) as Hoff.
    apply (same_row_trans ST _ pg cb0 cb1).
    + eapply copy_to_row; [done|lia].
    + by eapply patch_deltas_miss.
Qed.

Lemma get_block_untouched_row_witness :
  exists cb,
    materialized
      (get_block Int32 true Int32 true store0 reader_v2 4 0 empty_holder) =
      Done cb /\
    is_null cb 2 = Done false /\
    data_at Int32 cb 2 = Some (le_bytes 4 30).
Proof.
  destruct (get_block Int32 true Int32 true store0 reader_v2 4 0 empty_holder)
    as [[[h' cbh'] st]| |] eqn:Hget; [|vm_compute in Hget; discriminate..].
  destruct (get_block_untouched_row Int32 true Int32 true store0 reader_v2 4
              empty_holder h' cbh' st 2 base0) as (cb & Hheld & Hnull & Hdata).
  - lia.
  - reflexivity.
  - repeat constructor; vm_compute; congruence.
  - repeat constructor.
  - repeat constructor. vm_compute. eauto.
  - discriminate.
  - reflexivity.
  - exact Hget.
  - exists cb. split; [|split].
    + unfold materialized. simpl. by rewrite Hheld.
    + exact Hnull.
    + exact Hdata.
Defined.

(** ** Rows do not depend on the holder *)

Lemma same_row_sym (ST : ctype) (idx : Z) (cb1 cb2 : ColumnBlock) :
  same_row ST idx cb1 cb2 -> same_row ST idx cb2 cb1.
Proof. intros [H1 H2]. by split. Qed.

Lemma write_null_row (ST : ctype) (cb cb' : ColumnBlock) (pos idx : Z) (v : bool) :
  0 <= pos -> 0 <= idx ->
  write_null cb pos v = Done cb' ->
  is_null cb' idx = (if decide (pos = idx) then Done v else is_null cb idx) /\
  data_at ST cb' idx = data_at ST cb idx.
Proof.
  intros Hpos Hidx Hw. case_decide as Heq.
  - subst idx. apply write_null_same in Hw as [Hn Hd].
    split; [done|]. by apply data_at_data.
  - destruct (write_null_other _ _ _ idx _ Hw) as [Hn Hd]; [lia|].
    split; [done|]. by apply data_at_data.
Qed.

Lemma write_data_row (ST : ctype) (cb cb' : ColumnBlock) (pos idx i : Z)
    (delta : ColumnDelta) :
  0 <= pos -> 0 <= idx ->
  write_data ST cb pos (data delta) i = Done cb' ->
  is_null cb' idx = is_null cb idx /\
  data_at ST cb' idx = (if decide (pos = idx) then delta_value ST delta i
                        else data_at ST cb idx).
Proof.
  intros Hpos Hidx Hw. case_decide as Heq.
  - subst idx. apply write_data_same in Hw as (Hn & v & Hv & Hd).
    split; [by apply is_null_nulls|]. congruence.
  - destruct (write_data_other _ _ _ _ idx _ _ Hw) as [Hn Hd]; [lia|].
    split; [by apply is_null_nulls|done].
Qed.

(** One iteration maps equal rows to equal rows. *)
Lemma delta_body_same_row (Nullable : bool) (ST : ctype) (delta : ColumnDelta)
    (i idx : Z) (cb1 cb1' cb2 cb2' : ColumnBlock) :
  0 <= idx ->
  delta_body Nullable ST delta i cb1 = Done cb1' ->
  delta_body Nullable ST delta i cb2 = Done cb2' ->
  same_row ST idx cb1 cb2 ->
  same_row ST idx cb1' cb2'.
Proof.
  intros Hidx H1 H2 [Hn Hd]. unfold same_row.
  assert (exists r, DeltaIndex.poses (index delta) !! Z.to_nat i
                    = Some (Z.land r 0xffff)) as (r & Hposes).
  { destruct (delta_body_effect _ _ _ _ _ _ H1) as (r & Hr & _). exists r.
    unfold DeltaIndex.poses. by rewrite list_lookup_fmap, Hr. }
  pose proof (offset_nonneg r) as Hr.
  assert (forall c c' v, write_null c (Z.land r 0xffff) v = Done c' ->
            is_null c' idx = (if decide (Z.land r 0xffff = idx) then Done v
                              else is_null c idx) /\
            data_at ST c' idx = data_at ST c idx) as Hwn.
  { intros c c' v. by apply write_null_row. }
  assert (forall c c', write_data ST c (Z.land r 0xffff) (data delta) i = Done c' ->
            is_null c' idx = is_null c idx /\
            data_at ST c' idx = (if decide (Z.land r 0xffff = idx)
                                 then delta_value ST delta i
                                 else data_at ST c idx)) as Hwd.
  { intros c c'. by apply write_data_row. }
  unfold delta_body in H1, H2.
  destruct Nullable; [destruct (nulls delta) as [dn|]|];
    unfold row_with_nulls, row_without_nulls, row_plain in H1, H2;
    rewrite Hposes in H1, H2; simpl in H1, H2.
  - destruct (bool_get dn (Z.to_nat i)) as [[|]|]; simpl in H1, H2; [| |done].
    + apply Hwn in H1 as [-> ->]. apply Hwn in H2 as [-> ->].
      split; [by case_decide|done].
    + inv_done.
      repeat match goal with
             | H : write_null _ _ _ = Done _ |- _ => apply Hwn in H as [? ?]
             | H : write_data _ _ _ _ _ = Done _ |- _ => apply Hwd in H as [? ?]
             end.
      split; case_decide; congruence.
  - inv_done.
    repeat match goal with
           | H : write_null _ _ _ = Done _ |- _ => apply Hwn in H as [? ?]
           | H : write_data _ _ _ _ _ = Done _ |- _ => apply Hwd in H as [? ?]
           end.
    split; case_decide; congruence.
  - apply Hwd in H1 as [-> ->]. apply Hwd in H2 as [-> ->].
    split; [done|by case_decide].
Qed.

Lemma patch_rows_same_row (Nullable : bool) (ST : ctype) (delta : ColumnDelta)
    (idx : Z) (n : nat) (s : Z) (cb1 cb1' cb2 cb2' : ColumnBlock) :
  0 <= idx ->
  patch_rows (delta_body Nullable ST delta) n s cb1 = Done cb1' ->
  patch_rows (delta_body Nullable ST delta) n s cb2 = Done cb2' ->
  same_row ST idx cb1 cb2 ->
  same_row ST idx cb1' cb2'.
Proof.
  intros Hidx. revert s cb1 cb2. induction n as [|n IH]; intros s cb1 cb2; simpl.
  - by intros [= ->] [= ->].
  - intros H1 H2 Hsame. inv_done.
    eapply IH; [done|done|]. by eapply delta_body_same_row.
Qed.

Lemma patch_deltas_same_row (Nullable : bool) (ST : ctype)
    (ds : list ColumnDelta) (block idx : Z) (cb1 cb1' cb2 cb2' : ColumnBlock) :
  0 <= idx ->
  patch_deltas Nullable ST ds block cb1 = Done cb1' ->
  patch_deltas Nullable ST ds block cb2 = Done cb2' ->
  same_row ST idx cb1 cb2 ->
  same_row ST idx cb1' cb2'.
Proof.
  intros Hidx. revert cb1 cb2. induction ds as [|d ds IH]; intros cb1 cb2; simpl.
  - by intros [= ->] [= ->].
  - intros H1 H2 Hsame. inv_done.
    eapply IH; [done|done|].
    revert Ha Ha0. rewrite !patch_delta_eq. cbv zeta. case_decide.
    + by intros [= ->] [= ->].
    + intros Hr1 Hr2. by eapply patch_rows_same_row.
Qed.

(** The rows below [nrows] that [get_block] hands out are a function of
    the base block and the deltas alone.  Two calls for the same block,
    in stores that hold the same base blocks and through different
    holders (an empty one, one that shares a block, one that owns a block
    with stale rows), show the same null state and the same value in
    every row below [nrows]. *)
Theorem get_block_rows_independent_of_holder (T : ctype) (Nullable : bool)
    (ST : ctype) (reader : Reader) (nrows : nat) (block : Z) (idx : Z)
    (mem_ok1 mem_ok2 : bool) (h1 h2 : gmap nat ColumnBlock)
    (cbh1 cbh2 : ColumnBlockHolder)
    (h1' h2' : gmap nat ColumnBlock) (cbh1' cbh2' : ColumnBlockHolder)
    (st1 st2 : Status) :
  0 <= idx < Z.of_nat nrows ->
  Forall (fun l => is_Some (h1 !! l) /\ h2 !! l = h1 !! l) (_base reader) ->
  (forall l, _own cbh1 = true -> _cb cbh1 = Some l -> l ∉ _base reader) ->
  (forall l, _own cbh2 = true -> _cb cbh2 = Some l -> l ∉ _base reader) ->
  get_block T Nullable ST mem_ok1 h1 reader nrows block cbh1 =
    Done (h1', cbh1', st1) ->
  get_block T Nullable ST mem_ok2 h2 reader nrows block cbh2 =
    Done (h2', cbh2', st2) ->
  exists cb1 cb2,
    held h1' cbh1' = Some cb1 /\
    held h2' cbh2' = Some cb2 /\
    is_null cb1 idx = is_null cb2 idx /\
    data_at ST cb1 idx = data_at ST cb2 idx.
Proof.
  intros Hidx Hbase Hown1 Hown2 Hget1 Hget2.
  assert (Forall (fun l => is_Some (h1 !! l)) (_base reader)) as Hbase1.
  { eapply Forall_impl; [exact Hbase|]. by intros l [? _]. }
  assert (Forall (fun l => is_Some (h2 !! l)) (_base reader)) as Hbase2.
  { eapply Forall_impl; [exact Hbase|]. intros l [? ->]. done. }
  apply get_block_inv in Hget1 as (page & Hpage & Hcases1).
  apply get_block_inv in Hget2 as (page2 & Hpage2 & Hcases2).
  assert (page2 = page) as -> by congruence.
  assert (page ∈ _base reader) as Hin by by eapply list_elem_of_lookup_2.
  destruct (proj1 (Forall_forall _ _) Hbase page Hin) as [[pg0 Hpg0] Hsame].
  rewrite Hpg0 in Hsame.
  destruct Hcases1 as [(Hscan1 & -> & -> & _) | Hpatch1];
    destruct Hcases2 as [(Hscan2 & -> & -> & _) | Hpatch2].
  - exists pg0, pg0. by repeat split.
  - destruct Hpatch2 as (Hscan2 & _). congruence.
  - destruct Hpatch1 as (Hscan1 & _). congruence.
  - destruct Hpatch1 as (_ & fn1 & hh1 & l1 & cb1 & pg1 & cb01 & cb11 &
                         Hneed1 & Hpair1 & Hl1 & _ & Hpg1 & Hcopy1 & Hd1 & -> & _).
    destruct Hpatch2 as (_ & fn2 & hh2 & l2 & cb2 & pg2 & cb02 & cb12 &
                         Hneed2 & Hpair2 & Hl2 & _ & Hpg2 & Hcopy2 & Hd2 & -> & _).
    destruct (holder_target_frame T mem_ok1 h1 hh1 cbh1 cbh1' nrows
                (_base reader) fn1 l1 Hbase1 Hown1 Hneed1 Hpair1 Hl1)
      as (_ & _ & Hframe1).
    destruct (holder_target_frame T mem_ok2 h2 hh2 cbh2 cbh2' nrows
                (_base reader) fn2 l2 Hbase2 Hown2 Hneed2 Hpair2 Hl2)
      as (_ & _ & Hframe2).
    rewrite (Hframe1 page Hin), Hpg0 in Hpg1. injection Hpg1 as <-.
    rewrite (Hframe2 page Hin), Hsame in Hpg2. injection Hpg2 as <-.
    exists cb11, cb12.
    split. { unfold held. rewrite Hl1. simpl. apply lookup_insert_eq. }
    split. { unfold held. rewrite Hl2. simpl. apply lookup_insert_eq. }
    assert (same_row ST idx cb12 cb11) as [Hn Hd]; [|by split].
    eapply (patch_deltas_same_row Nullable ST (_deltas reader) block idx
              cb02 cb12 cb01 cb11); [lia|done|done|].
    eapply same_row_trans.
    + apply same_row_sym. eapply copy_to_row; [exact Hcopy2|done].
    + eapply copy_to_row; [exact Hcopy1|done].
Qed.

Lemma get_block_rows_independent_of_holder_witness :
  exists cb1 cb2,
    materialized
      (get_block Int32 true Int32 true store0 reader_v2 4 0 empty_holder) =
      Done cb1 /\
    materialized
      (get_block Int32 true Int32 false store_owned reader_v2 4 0 owning_holder) =
      Done cb2 /\
    is_null cb1 1 = is_null cb2 1 /\
    data_at Int32 cb1 1 = data_at Int32 cb2 1.
Proof.
  destruct (get_block Int32 true Int32 true store0 reader_v2 4 0
              empty_holder) as [[[h1 c1] s1]| |] eqn:Hget1;
    [|vm_compute in Hget1; discriminate..].
  destruct (get_block Int32 true Int32 false store_owned reader_v2 4 0
              owning_holder) as [[[h2 c2] s2]| |] eqn:Hget2;
    [|vm_compute in Hget2; discriminate..].
  destruct (get_block_rows_independent_of_holder Int32 true Int32
              reader_v2 4 0 1 true false store0 store_owned
              empty_holder owning_holder
              h1 h2 c1 c2 s1 s2) as (cb1 & cb2 & Hh1 & Hh2 & Hn & Hd).
  - lia.
  - repeat constructor. vm_compute. eauto.
  - discriminate.
  - intros l _ [= <-]. vm_compute. intros Hin.
    apply list_elem_of_In in Hin. simpl in Hin. destruct Hin as [?|[]]; lia.
  - exact Hget1.
  - exact Hget2.
  - exists cb1, cb2. unfold materialized. simpl. rewrite Hh1, Hh2. done.
Defined.

(** ** Row ids *)

Lemma rid_decode (block offset : Z) :
  0 <= block -> 0 <= offset < 65536 ->
  Z.shiftr (block * 65536 + offset) 16 = block /\
  Z.land (block * 65536 + offset) 0xffff = offset.
Proof.
  intros Hb Ho. rewrite Z.shiftr_div_pow2 by lia.
  change 0xffff with (Z.ones 16). rewrite Z.land_ones by lia.
  change (2 ^ 16) with 65536. split.
  - rewrite Z.add_comm, Z.div_add by lia. rewrite Z.div_small by lia. lia.
  - rewrite Z.add_comm, Z.mod_add by lia. by apply Z.mod_small.
Qed.

(** The row id [block * 65536 + offset], with [offset] below 65536, is
    looked up at offset [offset] of base block [block]: when no delta
    contains it and the row is not null in the base block, [get] returns
    the address of that element. *)
Theorem get_decodes_row_id (T : ctype) (Nullable : bool) (ST : ctype)
    (h : gmap nat ColumnBlock) (reader : Reader) (block offset : Z)
    (page : ColumnBlock) :
  0 <= block ->
  0 <= offset < 65536 ->
  Forall (fun d => find_idx d (block * 65536 + offset) = DeltaIndex.npos)
    (_deltas reader) ->
  base_block h reader block = Done page ->
  is_null page offset = Done false ->
  get T Nullable ST h reader (block * 65536 + offset) =
    Done (in_base block offset).
Proof.
  intros Hb Ho Hmiss Hpage Hnull.
  destruct (rid_decode block offset Hb Ho) as [Hshift Hland].
  unfold get, TypedColumnGet. rewrite get_scan_miss by done.
  rewrite Hshift, Hland, Hpage. simpl.
  destruct Nullable; [|done]. by rewrite Hnull.
Qed.

Lemma get_decodes_row_id_witness :
  get Int32 true Int32 store1 reader_two_blocks (1 * 65536 + 2) =
    Done (in_base 1 2).
Proof.
  apply (get_decodes_row_id Int32 true Int32 store1 reader_two_blocks 1 2 base1).
  - lia.
  - lia.
  - repeat constructor.
  - reflexivity.
  - reflexivity.
Defined.

(** ** What [get_block] leaves alone *)

Lemma patch_rows_plain_nulls (ST : ctype) (delta : ColumnDelta)
    (n : nat) (s : Z) (cb cb' : ColumnBlock) :
  patch_rows (delta_body false ST delta) n s cb = Done cb' ->
  _nulls cb' = _nulls cb.
Proof.
  revert s cb. induction n as [|n IH]; intros s cb; simpl.
  - by intros [= ->].
  - intros H. inv_done. apply IH in H. rewrite H.
    unfold row_plain, write_data in Ha. inv_done. by subst a.
Qed.

Lemma patch_deltas_plain_nulls (ST : ctype) (ds : list ColumnDelta)
    (block : Z) (cb cb' : ColumnBlock) :
  patch_deltas false ST ds block cb = Done cb' -> _nulls cb' = _nulls cb.
Proof.
  revert cb. induction ds as [|d ds IH]; intros cb; simpl.
  - by intros [= ->].
  - intros H. inv_done. apply IH in H. rewrite H.
    revert Ha. rewrite patch_delta_eq. cbv zeta. case_decide.
    + by intros [= ->].
    + apply patch_rows_plain_nulls.
Qed.

(** On a non-nullable column [get_block] writes no null flag: every row
    below [nrows] of the block it hands out has the null state the base
    block has, whatever the deltas contain. *)
Theorem get_block_nonnullable_keeps_null_state (T ST : ctype)
    (mem_ok : bool) (h : gmap nat ColumnBlock) (reader : Reader) (nrows : nat)
    (block idx : Z) (cbh : ColumnBlockHolder) (h' : gmap nat ColumnBlock)
    (cbh' : ColumnBlockHolder) (st : Status) (pg : ColumnBlock) :
  0 <= idx < Z.of_nat nrows ->
  Forall (fun l => is_Some (h !! l)) (_base reader) ->
  (forall l, _own cbh = true -> _cb cbh = Some l -> l ∉ _base reader) ->
  base_block h reader block = Done pg ->
  get_block T false ST mem_ok h reader nrows block cbh = Done (h', cbh', st) ->
  exists cb, held h' cbh' = Some cb /\ is_null cb idx = is_null pg idx.
Proof.
  intros Hidx Hbase Hown Hpg Hget.
  apply get_block_inv in Hget as (page & Hpage & Hcases).
  assert (page ∈ _base reader) as Hin by by eapply list_elem_of_lookup_2.
  assert (h !! page = Some pg) as Hpg0.
  { revert Hpg. unfold base_block. rewrite Hpage. simpl.
    by destruct (h !! page); simpl; intros [= ->]. }
  destruct Hcases as [(_ & -> & -> & _) | Hpatch].
  - exists pg. by split.
  - destruct Hpatch as (_ & fresh_needed & h1 & l & cb & pg' & cb0 & cb1 &
                        Hneed & Hpair & Hl & _ & Hpg' & Hcopy & Hdeltas & -> & _).
    destruct (holder_target_frame T mem_ok h h1 cbh cbh' nrows (_base reader)
                fresh_needed l Hbase Hown Hneed Hpair Hl) as (_ & _ & Hframe).
    rewrite (Hframe page Hin), Hpg0 in Hpg'. injection Hpg' as <-.
    exists cb1. split.
    { unfold held. rewrite Hl. simpl. apply lookup_insert_eq. }
    apply patch_deltas_plain_nulls in Hdeltas.
    rewrite (is_null_nulls cb0 cb1 idx Hdeltas).
    by destruct (copy_to_row ST pg cb cb0 nrows idx Hcopy Hidx) as [? _].
Qed.

Lemma get_block_nonnullable_keeps_null_state_witness :
  exists cb,
    materialized
      (get_block Int32 false Int32 true store0 reader_v2 4 0 empty_holder) =
      Done cb /\
    is_null cb 1 = Done false.
Proof.
  destruct (get_block Int32 false Int32 true store0 reader_v2 4 0 empty_holder)
    as [[[h' cbh'] st]| |] eqn:Hget; [|vm_compute in Hget; discriminate..].
  destruct (get_block_nonnullable_keeps_null_state Int32 Int32 true store0
              reader_v2 4 0 1 empty_holder h' cbh' st base0)
    as (cb & Hheld & Hnull).
  - lia.
  - repeat constructor. vm_compute. eauto.
  - discriminate.
  - reflexivity.
  - exact Hget.
  - exists cb. split; [|exact Hnull].
    unfold materialized. simpl. by rewrite Hheld.
Defined.

(** [get_block] asks for memory only when it has to allocate: when no
    delta contains the block, or when the holder owns a block of at least
    [nrows] rows, the call comes out the same whether or not memory can
    be obtained. *)
Theorem get_block_without_allocation (T : ctype) (Nullable : bool) (ST : ctype)
    (h : gmap nat ColumnBlock) (reader : Reader) (nrows : nat) (block : Z)
    (cbh : ColumnBlockHolder) :
  (Forall (fun d => contains_block d block = false) (_deltas reader) \/
   (_own cbh = true /\
    exists cb, held h cbh = Some cb /\ (nrows <= _size cb)%nat)) ->
  get_block T Nullable ST true h reader nrows block cbh =
  get_block T Nullable ST false h reader nrows block cbh.
Proof.
  intros Hcase. unfold get_block.
  destruct (defined (_base reader !! Z.to_nat block)) as [page| |]; simpl;
    [|done..].
  destruct Hcase as [Hnone | (Hown & cb & Hheld & Hsize)].
  - by rewrite (proj2 (base_only_scan_true _ _) Hnone).
  - destruct (base_only_scan (_deltas reader) block); [done|].
    unfold need_new. rewrite Hown, Hheld. simpl.
    by rewrite bool_decide_eq_false_2 by lia.
Qed.

Lemma get_block_without_allocation_witness :
  get_block Int32 true Int32 true store_owned reader_v2 4 0 owning_holder =
    get_block Int32 true Int32 false store_owned reader_v2 4 0 owning_holder /\
  get_block Int32 true Int32 true store1 reader_two_blocks 4 1 empty_holder =
    get_block Int32 true Int32 false store1 reader_two_blocks 4 1 empty_holder.
Proof.
  split.
  - apply get_block_without_allocation. right. split; [reflexivity|].
    exists stale_block. split; [reflexivity|]. simpl. lia.
  - apply get_block_without_allocation. left. repeat constructor.
Defined.
